(** * prepare.py: HDF5 universes to TFRecord sub-volumes

    A shallow embedding of [src/prepare.py] and the properties of its
    volume partitioning, file naming, file discovery and task splitting.

    Python integers are [Z]; Python lists and the yields of a generator are
    [list]; [str] is [string] (compared bytewise, which on UTF-8 is the
    code point order Python uses); an exception is the [Raise] branch of
    [result]; the files a run writes are a [gmap] from path to contents. *)

From Stdlib Require Import ZArith List Ascii Lia Bool Sorted Permutation.
From Stdlib Require Import Orders Mergesort DecimalString DecimalNat.
From stdpp Require Import gmap strings list fin_maps.
Import ListNotations.

Local Open Scope Z_scope.

(** ** Python values and exceptions *)

Inductive exn : Type :=
| ZeroDivisionError
| ValueError
| IndexError
| KeyError
| OSError
| FileNotFoundError
| FileExistsError
| NotADirectoryError
| NotFoundError
| FailedPreconditionError
| SystemExit2.

Inductive result (A : Type) : Type :=
| Ok (a : A)
| Raise (e : exn).

Arguments Ok {A} a.
Arguments Raise {A} e.

Definition bind {A B : Type} (r : result A) (k : A -> result B) : result B :=
  match r with
  | Ok a => k a
  | Raise e => Raise e
  end.

Notation "'try' x ':=' r 'in' k" := (bind r (fun x => k))
  (at level 10, x pattern, r at level 100, k at level 200).

(** [a // b] on Python ints: floor division, [ZeroDivisionError] on [b = 0]. *)
Definition floordiv (a b : Z) : result Z :=
  if b =? 0 then Raise ZeroDivisionError else Ok (a / b).

(** [range(n)]: empty for [n <= 0]. *)
Definition range (n : Z) : list Z := map Z.of_nat (seq 0 (Z.to_nat n)).

(** [slice(start, stop).indices(len)] for step 1: a negative bound counts
    from the end, and both bounds are clipped to [0..len]. *)
Definition clip_index (len i : Z) : Z :=
  if i <? 0 then Z.max 0 (i + len) else Z.min i len.

(** [l[start:stop]]; an omitted bound is [None]. *)
Definition slice {A : Type} (l : list A) (start stop : option Z) : list A :=
  let len := Z.of_nat (length l) in
  let lo := match start with Some a => clip_index len a | None => 0 end in
  let hi := match stop with Some b => clip_index len b | None => len end in
  firstn (Z.to_nat (hi - lo)) (skipn (Z.to_nat lo) l).

(** ** Volumes *)

(** A 3-dimensional array, outer axis first.  [A] is the cell type. *)
Definition volume (A : Type) : Type := list (list (list A)).

(** [x.shape[0]] *)
Definition shape0 {A : Type} (x : volume A) : Z := Z.of_nat (length x).

(** [x[a:b, c:d, e:f]] *)
Definition slice3 {A : Type} (x : volume A) (a b c d e f : Z) : volume A :=
  map (fun plane => map (fun row => slice row (Some e) (Some f))
                        (slice plane (Some c) (Some d)))
      (slice x (Some a) (Some b)).

(** [xi.flatten()]: row-major, last axis fastest. *)
Definition flatten {A : Type} (x : volume A) : list A := concat (concat x).

(** The cell [x[a][b][c]], [None] out of range. *)
Definition at3 {A : Type} (x : volume A) (a b c : nat) : option A :=
  match nth_error x a with
  | Some plane =>
      match nth_error plane b with
      | Some row => nth_error row c
      | None => None
      end
  | None => None
  end.

(** Shape [(E, E, E)]. *)
Definition cubic {A : Type} (E : nat) (x : volume A) : Prop :=
  length x = E /\
  Forall (fun plane => length plane = E /\
                       Forall (fun row => length row = E) plane) x.

(** ** split_universe *)

(** The generator, as the list of its yields in order. *)
Definition split_universe {A : Type} (x : volume A) (size : Z)
  : result (list (volume A)) :=
  try n := floordiv (shape0 x) size in
  Ok (flat_map (fun i =>
        let istart := i * size in
        let iend := (i + 1) * size in
        flat_map (fun j =>
          let jstart := j * size in
          let jend := (j + 1) * size in
          flat_map (fun k =>
            let kstart := k * size in
            let kend := (k + 1) * size in
            [slice3 x istart iend jstart jend kstart kend])
          (range n))
        (range n))
      (range n)).

(** The value yielded at loop variables [(i, j, k)]. *)
Definition sub_cube {A : Type} (x : volume A) (size : Z) (ijk : Z * Z * Z)
  : volume A :=
  let '(i, j, k) := ijk in
  slice3 x (i * size) ((i + 1) * size)
           (j * size) ((j + 1) * size)
           (k * size) ((k + 1) * size).

(** The values of the loop variables [(i, j, k)] at each yield, in order. *)
Definition block_indices (n : Z) : list (Z * Z * Z) :=
  flat_map (fun i =>
    flat_map (fun j =>
      flat_map (fun k => [(i, j, k)]) (range n))
    (range n))
  (range n).

(** The volume of edge [E] whose cell at [(a, b, c)] holds [(a, b, c)]. *)
Definition coords (E : nat) : volume (nat * nat * nat) :=
  map (fun a => map (fun b => map (fun c => (a, b, c)) (seq 0 E)) (seq 0 E))
      (seq 0 E).

(** Cell [(p, q, r)] of the [idx]-th yielded sub-cube. *)
Definition cell {A : Type} (cubes : list (volume A)) (w : nat * nat * nat * nat)
  : option A :=
  let '(idx, p, q, r) := w in
  match nth_error cubes idx with
  | Some cube => at3 cube p q r
  | None => None
  end.

(** The sub-cube with block index [(i, j, k)] as a window of [x]: the
    cells [x[i*s + p][j*s + q][k*s + r]] for [p, q, r < s]. *)
Definition window3 {A : Type} (x : volume A) (s i j k : nat) : volume A :=
  map (fun plane => map (fun row => firstn s (skipn (k * s) row))
                        (firstn s (skipn (j * s) plane)))
      (firstn s (skipn (i * s) x)).

(** ** Strings and paths *)

(** [s.startswith(prefix)] *)
Definition startswith (s prefix : string) : bool := String.prefix prefix s.

(** [s.endswith(suffix)] *)
Definition endswith (s suffix : string) : bool :=
  let n := String.length s in
  let m := String.length suffix in
  (m <=? n)%nat && String.eqb (String.substring (n - m) m s) suffix.

(** [os.path.join(a, b)] of [posixpath]. *)
Definition path_join (a b : string) : string :=
  if startswith b "/" then b
  else if String.eqb a "" || endswith a "/" then a +:+ b
  else a +:+ "/" +:+ b.

(** A directory path as [os.path.join] puts it before a relative name. *)
Definition with_sep (a : string) : string :=
  if String.eqb a "" || endswith a "/" then a else a +:+ "/".

(** Does the string hold a ['/']? *)
Fixpoint has_sep (p : string) : bool :=
  match p with
  | EmptyString => false
  | String c rest => Ascii.eqb c "/" || has_sep rest
  end.

(** [os.path.basename(p)] of [posixpath]: what follows the last ['/']. *)
Fixpoint basename (p : string) : string :=
  match p with
  | EmptyString => EmptyString
  | String c rest =>
      if has_sep rest then basename rest
      else if Ascii.eqb c "/" then rest
      else p
  end.

(** Is the string made of ['/'] only? *)
Fixpoint all_sep (s : string) : bool :=
  match s with
  | EmptyString => true
  | String c rest => Ascii.eqb c "/" && all_sep rest
  end.

(** [s.rstrip('/')] *)
Fixpoint rstrip_sep (s : string) : string :=
  match s with
  | EmptyString => EmptyString
  | String c rest => if all_sep s then EmptyString else String c (rstrip_sep rest)
  end.

(** A directory path without its trailing separators; a path of
    separators only is left as it is. *)
Definition strip_sep (head : string) : string :=
  if all_sep head then head else rstrip_sep head.

(** [p[:p.rfind('/') + 1]]: the path up to and with its last ['/']. *)
Fixpoint head_of (p : string) : string :=
  match p with
  | EmptyString => EmptyString
  | String c rest =>
      if has_sep rest then String c (head_of rest)
      else if Ascii.eqb c "/" then String c EmptyString
      else EmptyString
  end.

(** [os.path.dirname(p)] of [posixpath]. *)
Definition dirname (p : string) : string := strip_sep (head_of p).

(** The directories above [d], nearest first, up to the root or the
    working directory. *)
Fixpoint ancestors (fuel : nat) (d : string) : list string :=
  match fuel with
  | O => []
  | S fuel' =>
      let h := dirname d in
      if String.eqb h d || String.eqb h "" then [] else h :: ancestors fuel' h
  end.

(** The directories [os.makedirs(name)] makes sure of: [name] and those
    above it. *)
Definition made_dirs (name : string) : list string :=
  strip_sep name :: ancestors (String.length (strip_sep name)) (strip_sep name).

(** [s.replace(old, new)] for a non-empty [old]: occurrences are found
    left to right and do not overlap.  [skip] counts the characters of
    the occurrence just replaced that are still to be passed over. *)
Fixpoint replace_from (skip : nat) (old new s : string) : string :=
  match s with
  | EmptyString => EmptyString
  | String c rest =>
      match skip with
      | S skip' => replace_from skip' old new rest
      | O =>
          if String.prefix old s
          then new +:+ replace_from (String.length old - 1) old new rest
          else String c (replace_from 0 old new rest)
      end
  end.

Definition replace (s old new : string) : string := replace_from 0 old new s.

(** Does [pat] occur in [s]? *)
Fixpoint occurs (pat s : string) : bool :=
  String.prefix pat s ||
  match s with
  | EmptyString => false
  | String _ rest => occurs pat rest
  end.

(** ** find_files *)

(** A directory: its sub-directories and its plain files, by name, in
    the order the operating system lists them. *)
#[local] Set Warnings "-register-all".
Inductive dir : Type :=
| Dir (subdirs : list (string * dir)) (subfiles : list string).

(** [os.walk(top)], top-down: one [(dirpath, dirnames, filenames)] per
    directory, a directory before its sub-directories. *)
Fixpoint walk (dirpath : string) (d : dir)
  : list (string * list string * list string) :=
  match d with
  | Dir subdirs subfiles =>
      (dirpath, map fst subdirs, subfiles)
        :: flat_map (fun entry => walk (path_join dirpath (fst entry)) (snd entry))
                    subdirs
  end.

Module PathOrder <: Orders.TotalLeBool.
Definition t := string.
Definition leb : t -> t -> bool := String.leb.
Definition leb_total : forall x y : t, leb x y = true \/ leb y x = true :=
  String.leb_total.
End PathOrder.

Module PathSort := Mergesort.Sort PathOrder.

(** [sorted(files)] on a list of [str]. *)
Definition sorted (files : list string) : list string := PathSort.sort files.

(** The loop of [find_files]: the paths appended to [files], in order. *)
Definition discovered (input_dir : string) (tree : dir) : list string :=
  flat_map (fun entry =>
    let '(subdir, _, subfiles) := entry in
    flat_map (fun f => if endswith f "hdf5" then [path_join subdir f] else [])
             subfiles)
  (walk input_dir tree).

Definition find_files (input_dir : string) (tree : dir) (max_files : option Z)
  : list string :=
  let files := discovered input_dir tree in
  let files := sorted files in
  match max_files with
  | Some m => slice files None (Some m)
  | None => files
  end.

(** A name a directory can list: not empty, and without a ['/']. *)
Definition entry_name (name : string) : bool :=
  negb (String.eqb name "") && negb (has_sep name).

(** Every name listed in the tree is one. *)
Fixpoint well_named (d : dir) : bool :=
  match d with
  | Dir subdirs subfiles =>
      forallb entry_name subfiles &&
      forallb (fun entry => entry_name (fst entry) && well_named (snd entry))
              subdirs
  end.

(** No name is in the list twice. *)
Fixpoint distinct (names : list string) : bool :=
  match names with
  | [] => true
  | name :: rest => negb (existsb (String.eqb name) rest) && distinct rest
  end.

(** No directory of the tree lists a file twice or a sub-directory
    twice. *)
Fixpoint distinct_names (d : dir) : bool :=
  match d with
  | Dir subdirs subfiles =>
      distinct subfiles &&
      distinct (map fst subdirs) &&
      forallb (fun entry => distinct_names (snd entry)) subdirs
  end.

(** [file_at tree names f]: going down from the top of the tree through
    the directories [names], one reaches a directory that lists the file
    [f]. *)
Inductive file_at : dir -> list string -> string -> Prop :=
| file_here (subdirs : list (string * dir)) (subfiles : list string)
    (f : string) :
    In f subfiles -> file_at (Dir subdirs subfiles) [] f
| file_below (subdirs : list (string * dir)) (subfiles : list string)
    (name : string) (sub : dir) (names : list string) (f : string) :
    In (name, sub) subdirs -> file_at sub names f ->
    file_at (Dir subdirs subfiles) (name :: names) f.

(** The path of that file below [input_dir]: the directory names and the
    file name, with a ['/'] between them. *)
Definition full_path (input_dir : string) (names : list string) (f : string)
  : string :=
  with_sep input_dir +:+ String.concat "/" (names ++ [f]).

(** Two directory trees that hold the same entries and differ only in
    the order in which each directory lists them. *)
Inductive relisted : dir -> dir -> Prop :=
| relisted_Dir (subdirs subdirs' : list (string * dir))
    (subfiles subfiles' : list string) :
    Permutation subfiles subfiles' ->
    relisted_entries subdirs subdirs' ->
    relisted (Dir subdirs subfiles) (Dir subdirs' subfiles')
with relisted_entries : list (string * dir) -> list (string * dir) -> Prop :=
| relisted_nil : relisted_entries [] []
| relisted_cons (name : string) (d d' : dir) (l l' : list (string * dir)) :
    relisted d d' -> relisted_entries l l' ->
    relisted_entries ((name, d) :: l) ((name, d') :: l')
| relisted_swap (e1 e2 : string * dir) (l l' : list (string * dir)) :
    relisted_entries l l' ->
    relisted_entries (e1 :: e2 :: l) (e2 :: e1 :: l')
| relisted_trans (l1 l2 l3 : list (string * dir)) :
    relisted_entries l1 l2 -> relisted_entries l2 l3 ->
    relisted_entries l1 l3.

Scheme relisted_mut := Induction for relisted Sort Prop
  with relisted_entries_mut := Induction for relisted_entries Sort Prop.

(** ** Task partitioning *)

(** [l[i]] on a Python list: a negative index counts from the end. *)
Definition getitem {A : Type} (l : list A) (i : Z) : result A :=
  let len := Z.of_nat (length l) in
  let i' := if i <? 0 then i + len else i in
  if (i' <? 0) || (len <=? i') then Raise IndexError
  else match nth_error l (Z.to_nat i') with
       | Some a => Ok a
       | None => Raise IndexError
       end.

(** [numpy.cumsum] *)
Fixpoint cumsum_from (acc : Z) (l : list Z) : list Z :=
  match l with
  | [] => []
  | a :: l' => (acc + a) :: cumsum_from (acc + a) l'
  end.

Definition cumsum (l : list Z) : list Z := cumsum_from 0 l.

(** [numpy.array_split(ary, Nsections)] for an integer number of sections
    on a one-dimensional array: [extras] sections of [Neach_section + 1]
    elements, then sections of [Neach_section], cut at the running sums. *)
Definition array_split {A : Type} (ary : list A) (Nsections : Z)
  : result (list (list A)) :=
  if Nsections <=? 0 then Raise ValueError
  else
    let Ntotal := Z.of_nat (length ary) in
    let Neach_section := Ntotal / Nsections in
    let extras := Ntotal mod Nsections in
    let section_sizes :=
      [0] ++ repeat (Neach_section + 1) (Z.to_nat extras)
          ++ repeat Neach_section (Z.to_nat (Nsections - extras)) in
    let div_points := cumsum section_sizes in
    Ok (map (fun i =>
               let st := nth (Z.to_nat i) div_points 0 in
               let end_ := nth (Z.to_nat (i + 1)) div_points 0 in
               slice ary (Some st) (Some end_))
            (range Nsections)).

(** [np.array_split(input_files, n_tasks)[task]] *)
Definition task_files {A : Type} (input_files : list A) (n_tasks task : Z)
  : result (list A) :=
  try chunks := array_split input_files n_tasks in
  getitem chunks task.

(** ** Files, records and the effects of a run *)

(** ['%03i' % i] for the non-negative [i] that [enumerate] produces:
    decimal digits, padded with zeros on the left to three characters. *)
Definition decimal (i : nat) : string :=
  DecimalString.NilEmpty.string_of_uint (Nat.to_uint i).

Definition format_03i (i : nat) : string :=
  let digits := decimal i in
  String.concat "" (repeat "0" (3 - String.length digits)) +:+ digits.

(** The number a string of decimal digits stands for. *)
Definition index_of_digits (s : string) : option nat :=
  option_map Nat.of_uint (DecimalString.NilEmpty.uint_of_string s).

(** The name of the output file of sub-cube [i] of [input_file]. *)
Definition output_file_name (output_dir input_file : string) (i : nat) : string :=
  path_join output_dir
    (replace (basename input_file) ".hdf5" ("_" +:+ format_03i i +:+ ".tfrecord")).

(** What the run did to the outside world, in order: a directory made
    sure of and a file written, logged when the call has gone through,
    and a file opened for reading, logged when the open is tried. *)
Inductive event : Type :=
| EvMakedirs (path : string)
| EvRead (path : string)
| EvWrite (path : string).

Section Records.

(** [A] is the cell type of the datasets, [F] an IEEE-754 single and
    [f32] the conversion [tf.train.FloatList] applies to each value. *)
Context {A F : Type}.
Variable f32 : A -> F.

(** A [tf.train.Example] with the float-list features [x] and [y]. *)
Record example : Type := Example { feature_x : list F; feature_y : list F }.

(** The contents of a regular file: an HDF5 container with the
    three-dimensional dataset [full] and the dataset [unitPar], an HDF5
    container in which one of the two is missing, or a TFRecord file
    holding one serialized example. *)
Inductive content : Type :=
| Hdf5 (full : volume A) (unitPar : list A)
| Hdf5Lacking
| TFRecord (record : example).

(** The file system and the log of events: the regular files and the
    directories, each under its path.  A directory is known by its path
    without trailing separators; the working directory (the empty
    path) and the root are there without being listed.  Every directory
    of a world can be written to. *)
Record world : Type := World {
  files : gmap string content;
  dirs : gset string;
  events : list event
}.

(** A computation that changes the world and returns or raises. *)
Definition action (X : Type) : Type := world -> world * result X.

Definition ret {X : Type} (v : X) : action X := fun w => (w, Ok v).

Definition raise {X : Type} (e : exn) : action X := fun w => (w, Raise e).

Definition lift {X : Type} (r : result X) : action X := fun w => (w, r).

Definition and_then {X Y : Type} (m : action X) (k : X -> action Y) : action Y :=
  fun w =>
    match m w with
    | (w', Ok v) => k v w'
    | (w', Raise e) => (w', Raise e)
    end.

Definition log (ev : event) : action unit :=
  fun w => (World (files w) (dirs w) (events w ++ [ev]), Ok tt).

(** [for v in l: body(v)] *)
Fixpoint for_each {X : Type} (l : list X) (body : X -> action unit) : action unit :=
  match l with
  | [] => ret tt
  | v :: l' => and_then (body v) (fun _ => for_each l' body)
  end.

(** [read_hdf5]: [h5py.File] raises [OSError] unless the path holds an
    HDF5 container, and the lookup of a dataset that is not in the
    container raises [KeyError]. *)
Definition read_hdf5 (file_path : string) : action (volume A * list A) :=
  and_then (log (EvRead file_path)) (fun _ w =>
    match files w !! file_path with
    | Some (Hdf5 x y) => (w, Ok (x, y))
    | Some Hdf5Lacking => (w, Raise KeyError)
    | _ => (w, Raise OSError)
    end).

(** Is there a directory [d]?  The working directory (the empty path)
    and the root are always there. *)
Definition dir_exists (w : world) (d : string) : bool :=
  all_sep d || bool_decide (d ∈ dirs w).

(** Can a regular file be created or replaced at [path]?  Its directory
    has to be there, and the path must not name a directory. *)
Definition can_write (w : world) (path : string) : bool :=
  negb (String.eqb path "") && dir_exists w (dirname path) &&
  negb (endswith path "/") && negb (bool_decide (path ∈ dirs w)).

(** Is a regular file at one of the paths? *)
Definition file_among (w : world) (paths : list string) : bool :=
  existsb (fun h => bool_decide (is_Some (files w !! h))) paths.

(** [write_record]: [tf.io.TFRecordWriter] opens the file for writing.
    When the directory of the file is not there it raises
    [FailedPreconditionError] if a regular file is in the way, at the
    place of that directory or above it, and [NotFoundError] otherwise;
    it raises [FailedPreconditionError] when the path names a directory;
    otherwise the file is created or replaced. *)
Definition write_record (output_file : string) (ex : example) : action unit :=
  fun w =>
    if String.eqb output_file "" || negb (dir_exists w (dirname output_file))
    then (w, Raise (if file_among w (made_dirs (dirname output_file))
                    then FailedPreconditionError else NotFoundError))
    else if endswith output_file "/" || bool_decide (output_file ∈ dirs w)
    then (w, Raise FailedPreconditionError)
    else (World (<[output_file := TFRecord ex]> (files w)) (dirs w)
                (events w ++ [EvWrite output_file]), Ok tt).

(** [os.makedirs(name, exist_ok=True)]: [FileNotFoundError] for the
    empty path, [FileExistsError] when a regular file is at the path,
    [NotADirectoryError] when one is at a directory above it; otherwise
    the directory and the missing directories above it are there
    afterwards. *)
Definition makedirs (name : string) : action unit :=
  fun w =>
    let d := strip_sep name in
    let above := ancestors (String.length d) d in
    if String.eqb name "" then (w, Raise FileNotFoundError)
    else if bool_decide (is_Some (files w !! d)) then (w, Raise FileExistsError)
    else if existsb (fun h => bool_decide (is_Some (files w !! h))) above
    then (w, Raise NotADirectoryError)
    else (World (files w) (dirs w ∪ list_to_set (d :: above))
                (events w ++ [EvMakedirs name]), Ok tt).

(** [enumerate(l)] *)
Definition enumerate {X : Type} (l : list X) : list (nat * X) :=
  combine (seq 0 (length l)) l.

(** The example built from sub-cube [xi] and the parameters [y]. *)
Definition feature_dict (xi : volume A) (y : list A) : example :=
  Example (map f32 (flatten xi)) (map f32 y).

Definition process_file (input_file output_dir : string) (sample_size : Z)
  : action unit :=
  and_then (read_hdf5 input_file) (fun xy =>
    let '(x, y) := xy in
    and_then (lift (split_universe x sample_size)) (fun cubes =>
      for_each (enumerate cubes) (fun ixi =>
        let '(i, xi) := ixi in
        let tf_example := feature_dict xi y in
        let output_file := output_file_name output_dir input_file i in
        write_record output_file tf_example))).

(** ** main *)

(** The namespace [parse_args] returns. *)
Record args : Type := Args {
  input_dir : string;
  output_dir : string;
  verbose : bool;
  sample_size : Z;
  max_files : option Z;
  n_workers : Z;
  task : Z;
  n_tasks : Z
}.

(** The command line after [argparse] has split it and applied [type=int]:
    the value given for each option, [None] when the option is absent. *)
Record command_line : Type := CommandLine {
  cli_input_dir : option string;
  cli_output_dir : option string;
  cli_verbose : bool;
  cli_sample_size : option Z;
  cli_max_files : option Z;
  cli_n_workers : option Z;
  cli_task : option Z;
  cli_n_tasks : option Z
}.

(** [parse_args]: the defaults; no value is checked. *)
Definition parse_args (cl : command_line) : args :=
  {| input_dir := default "/project/projectdirs/m3363/www/cosmoUniverse_2019_05_4parE"
                          (cli_input_dir cl);
     output_dir := default "/global/cscratch1/sd/sfarrell/cosmoflow-benchmark/data/cosmoUniverse_2019_05_4parE_tf"
                           (cli_output_dir cl);
     verbose := cli_verbose cl;
     sample_size := default 128 (cli_sample_size cl);
     max_files := cli_max_files cl;
     n_workers := default 1 (cli_n_workers cl);
     task := default 0 (cli_task cl);
     n_tasks := default 1 (cli_n_tasks cl) |}.

(** [mp.Pool(processes)]: the size of the pool, [ValueError] below one. *)
Definition Pool (processes : Z) : result nat :=
  if processes <? 1 then Raise ValueError else Ok (Z.to_nat processes).

(** The chunk size [Pool.map] picks for [len] items and [workers]
    processes. *)
Definition map_chunksize (len workers : nat) : nat :=
  let chunksize := (len / (workers * 4))%nat in
  let extra := (len mod (workers * 4))%nat in
  if (extra =? 0)%nat then chunksize else S chunksize.

(** The iterable cut into tuples of [size] items. *)
Fixpoint get_tasks {X : Type} (fuel size : nat) (it : list X) : list (list X) :=
  match fuel with
  | O => []
  | S fuel' =>
      match it with
      | [] => []
      | _ => firstn size it :: get_tasks fuel' size (skipn size it)
      end
  end.

(** The chunks of a [Pool.map] run one after the other: a chunk stops at
    its first exception, the chunks after it still run, and the first
    exception is raised when all are done.  Worker processes run chunks
    at the same time; this is the schedule of a pool of one. *)
Fixpoint run_chunks {X : Type} (func : X -> action unit) (chunks : list (list X))
  : action unit :=
  match chunks with
  | [] => ret tt
  | chunk :: rest =>
      fun w =>
        let '(w1, r1) := for_each chunk func w in
        let '(w2, r2) := run_chunks func rest w1 in
        (w2, match r1 with Raise e => Raise e | Ok _ => r2 end)
  end.

Definition pool_map {X : Type} (workers : nat) (func : X -> action unit)
  (iterable : list X) : action unit :=
  let chunksize := map_chunksize (length iterable) workers in
  run_chunks func (get_tasks (length iterable) chunksize iterable).

(** [main], after the command line is parsed; [tree] is the directory
    tree found at [input_dir]. *)
Definition main (a : args) (tree : dir) : action unit :=
  and_then (makedirs (output_dir a)) (fun _ =>
    let input_files := find_files (input_dir a) tree (max_files a) in
    and_then (lift (task_files input_files (n_tasks a) (task a)))
      (fun input_files =>
         and_then (lift (Pool (n_workers a))) (fun pool =>
           let process_func f := process_file f (output_dir a) (sample_size a) in
           pool_map pool process_func input_files))).

(** The exit status of the interpreter: 0 when [main] returns, 1 when an
    exception escapes, 2 when [argparse] rejects the command line. *)
Definition exit_code (r : result unit) : Z :=
  match r with
  | Ok _ => 0
  | Raise SystemExit2 => 2
  | Raise _ => 1
  end.

End Records.

Arguments example : clear implicits.
Arguments content : clear implicits.
Arguments world : clear implicits.
Arguments action : clear implicits.

(** The writes of one [process_file] call, in order: file name and
    example of every sub-cube. *)
Definition writes_of {A F : Type} (f32 : A -> F) (output_dir input_file : string)
  (cubes : list (volume A)) (y : list A) : list (string * example F) :=
  map (fun ixi => (output_file_name output_dir input_file (fst ixi),
                   feature_dict f32 (snd ixi) y))
      (enumerate cubes).

(** A list of writes carried out on a world. *)
Definition apply_writes {A F : Type} (W : list (string * example F))
  (w : world A F) : world A F :=
  World (fold_left (fun m pe => <[fst pe := TFRecord (snd pe)]> m) W (files w))
        (dirs w)
        (events w ++ map (fun pe => EvWrite (fst pe)) W).

(** A list of writes, one [write_record] call after the other. *)
Definition run_writes {A F : Type} (W : list (string * example F))
  : action A F unit :=
  for_each W (fun pe => write_record (fst pe) (snd pe)).

(** The example the last write to [p] in [W] leaves there. *)
Fixpoint last_write {F : Type} (W : list (string * example F)) (p : string)
  : option (example F) :=
  match W with
  | [] => None
  | (q, ex) :: W' =>
      match last_write W' p with
      | Some ex' => Some ex'
      | None => if decide (q = p) then Some ex else None
      end
  end.


(** The events a run over the source files [found] may add: reading one
    of them, or writing an output file of one of them. *)
Definition allowed (out : string) (found : list string) (ev : event) : Prop :=
  match ev with
  | EvMakedirs _ => False
  | EvRead f => In f found
  | EvWrite p => exists f i, In f found /\ p = output_file_name out f i
  end.

(** World [w'] comes from [w] by such events alone: the directories are
    the same, and every path that is not an output file of one of
    [found] holds what it held. *)
Definition touches {A F : Type} (out : string) (found : list string)
  (w w' : world A F) : Prop :=
  exists new,
    events w' = events w ++ new /\
    Forall (allowed out found) new /\
    dirs w' = dirs w /\
    forall p, (forall f i, In f found -> p <> output_file_name out f i) ->
              files w' !! p = files w !! p.

(** Sum of a list of integers. *)
Definition zsum (l : list Z) : Z := fold_right Z.add 0 l.

(** Start of chunk [t] when [L] elements are cut into [T] chunks. *)
Definition chunk_start (L T t : nat) : nat :=
  (L / T * t + Nat.min t (L mod T))%nat.

(** Size of chunk [t]: the first [L mod T] chunks hold one more element. *)
Definition chunk_size (L T t : nat) : nat :=
  (L / T + if t <? L mod T then 1 else 0)%nat.

(* ================================================================= *)
(** * Properties *)

(** ** Slices and ranges *)

Lemma range_nat (n : nat) : range (Z.of_nat n) = map Z.of_nat (seq 0 n).
Proof. unfold range. now rewrite Nat2Z.id. Qed.

Lemma range_nonpos (n : Z) : n <= 0 -> range n = [].
Proof.
  intros Hn. unfold range.
  replace (Z.to_nat n) with 0%nat by lia. reflexivity.
Qed.

(** Inside the list a slice with non-negative bounds is a window. *)
Lemma slice_window {A : Type} (l : list A) (a m : nat) :
  (a + m <= length l)%nat ->
  slice l (Some (Z.of_nat a)) (Some (Z.of_nat a + Z.of_nat m)) =
  firstn m (skipn a l).
Proof.
  intros Hlen. unfold slice, clip_index.
  destruct (Z.ltb_spec (Z.of_nat a) 0) as [H1|H1]; [lia|].
  destruct (Z.ltb_spec (Z.of_nat a + Z.of_nat m) 0) as [H2|H2]; [lia|].
  rewrite !Z.min_l by lia.
  replace (Z.to_nat (Z.of_nat a + Z.of_nat m - Z.of_nat a)) with m by lia.
  now rewrite Nat2Z.id.
Qed.

Lemma nth_error_window {A : Type} (l : list A) (a m p : nat) :
  (p < m)%nat ->
  nth_error (firstn m (skipn a l)) p = nth_error l (a + p).
Proof.
  intros Hp. rewrite nth_error_firstn.
  destruct (Nat.ltb_spec p m) as [_|H]; [|lia].
  apply nth_error_skipn.
Qed.

Lemma length_window {A : Type} (l : list A) (a m : nat) :
  (a + m <= length l)%nat -> length (firstn m (skipn a l)) = m.
Proof. intros H. rewrite length_firstn, length_skipn. lia. Qed.

(** ** Indexing the yields of a loop nest *)

Lemma length_flat_map_seq {B : Type} (f : nat -> list B) (m n : nat) :
  (forall t, (t < n)%nat -> length (f t) = m) ->
  length (flat_map f (seq 0 n)) = (n * m)%nat.
Proof.
  intros Hlen.
  rewrite flat_map_constant_length with (c := m).
  - now rewrite length_seq.
  - intros t Ht. apply in_seq in Ht. apply Hlen. lia.
Qed.

Lemma nth_error_flat_map_seq {B : Type} (f : nat -> list B) (m n i p : nat) :
  (forall t, (t < n)%nat -> length (f t) = m) ->
  (i < n)%nat -> (p < m)%nat ->
  nth_error (flat_map f (seq 0 n)) (i * m + p) = nth_error (f i) p.
Proof.
  intros Hlen. revert i.
  induction n as [|n IH]; intros i Hi Hp; [lia|].
  rewrite seq_S, flat_map_app. simpl. rewrite app_nil_r.
  assert (Hpre : length (flat_map f (seq 0 n)) = (n * m)%nat).
  { apply length_flat_map_seq. intros; apply Hlen; lia. }
  rewrite nth_error_app, Hpre.
  destruct (Nat.ltb_spec (i * m + p) (n * m)) as [Hlt|Hge].
  - apply IH; [intros; apply Hlen; lia| nia |exact Hp].
  - assert (i = n) by nia. subst i. f_equal. lia.
Qed.

Lemma flat_map_range {B : Type} (f : Z -> list B) (g : nat -> list B) (n : nat) :
  (forall i, (i < n)%nat -> f (Z.of_nat i) = g i) ->
  flat_map f (range (Z.of_nat n)) = flat_map g (seq 0 n).
Proof.
  intros Hfg. rewrite range_nat.
  assert (H : forall l, (forall i, In i l -> (i < n)%nat) ->
                        flat_map f (map Z.of_nat l) = flat_map g l).
  { induction l as [|a l IH]; intros Hl; simpl; [reflexivity|].
    rewrite Hfg by (apply Hl; now left).
    f_equal. apply IH. intros i Hi. apply Hl. now right. }
  apply H. intros i Hi. apply in_seq in Hi. lia.
Qed.

(** The three nested loops over [range(n)], yielding [g i j k]. *)
Section Nest.
Context {B : Type}.
Variables (g : nat -> nat -> nat -> B) (n : nat).

Let inner (i j : nat) : list B := flat_map (fun k => [g i j k]) (seq 0 n).
Let middle (i : nat) : list B := flat_map (inner i) (seq 0 n).

Lemma length_inner (i j : nat) : length (inner i j) = n.
Proof.
  unfold inner. rewrite (length_flat_map_seq _ 1); [lia|reflexivity].
Qed.

Lemma length_middle (i : nat) : length (middle i) = (n * n)%nat.
Proof.
  unfold middle. apply length_flat_map_seq. intros; apply length_inner.
Qed.

Lemma length_nest3 :
  length (flat_map middle (seq 0 n)) = (n * n * n)%nat.
Proof.
  rewrite (length_flat_map_seq _ (n * n)); [lia|].
  intros; apply length_middle.
Qed.

Lemma nth_error_nest3 (i j k : nat) :
  (i < n)%nat -> (j < n)%nat -> (k < n)%nat ->
  nth_error (flat_map middle (seq 0 n)) ((i * n + j) * n + k) =
  Some (g i j k).
Proof.
  intros Hi Hj Hk.
  replace ((i * n + j) * n + k)%nat with (i * (n * n) + (j * n + k))%nat
    by lia.
  rewrite (nth_error_flat_map_seq _ (n * n));
    [|intros; apply length_middle|exact Hi|nia].
  unfold middle.
  rewrite (nth_error_flat_map_seq _ n);
    [|intros; apply length_inner|exact Hj|exact Hk].
  unfold inner.
  replace k with (k * 1 + 0)%nat at 1 by lia.
  rewrite (nth_error_flat_map_seq _ 1); [reflexivity| |exact Hk|lia].
  reflexivity.
Qed.

(** Every position of the output is one [(i, j, k)]. *)
Lemma nest3_position (idx : nat) :
  (idx < n * n * n)%nat ->
  exists i j k, (i < n)%nat /\ (j < n)%nat /\ (k < n)%nat /\
                idx = ((i * n + j) * n + k)%nat.
Proof.
  intros Hidx. assert (Hn : n <> 0%nat) by lia.
  exists (idx / n / n)%nat, (idx / n mod n)%nat, (idx mod n)%nat.
  pose proof (Nat.Div0.div_mod idx n) as H1.
  pose proof (Nat.Div0.div_mod (idx / n) n) as H2.
  pose proof (Nat.mod_upper_bound idx n Hn) as H3.
  pose proof (Nat.mod_upper_bound (idx / n) n Hn) as H4.
  repeat split; try assumption.
  - apply Nat.Div0.div_lt_upper_bound. apply Nat.Div0.div_lt_upper_bound. lia.
  - lia.
Qed.

End Nest.

(** ** Cells of windows and of the coordinate volume *)

Lemma at3_window3 {A : Type} (x : volume A) (s i j k p q r : nat) :
  (p < s)%nat -> (q < s)%nat -> (r < s)%nat ->
  at3 (window3 x s i j k) p q r = at3 x (i * s + p) (j * s + q) (k * s + r).
Proof.
  intros Hp Hq Hr. unfold at3, window3.
  rewrite nth_error_map, nth_error_window by exact Hp.
  destruct (nth_error x (i * s + p)) as [plane|]; simpl; [|reflexivity].
  rewrite nth_error_map, nth_error_window by exact Hq.
  destruct (nth_error plane (j * s + q)) as [row|]; simpl; [|reflexivity].
  now apply nth_error_window.
Qed.

Lemma at3_cubic_bounds {A : Type} (m : nat) (y : volume A) (p q r : nat) (v : A) :
  cubic m y -> at3 y p q r = Some v -> (p < m)%nat /\ (q < m)%nat /\ (r < m)%nat.
Proof.
  intros [Hlen Hall] Hat. unfold at3 in Hat.
  destruct (nth_error y p) as [plane|] eqn:Hp; [|discriminate].
  destruct (nth_error plane q) as [row|] eqn:Hq; [|discriminate].
  rewrite List.Forall_forall in Hall.
  destruct (Hall plane (nth_error_In _ _ Hp)) as [Hpl Hrows].
  rewrite List.Forall_forall in Hrows.
  pose proof (Hrows row (nth_error_In _ _ Hq)) as Hrow.
  assert (Hp' : nth_error y p <> None) by congruence.
  assert (Hq' : nth_error plane q <> None) by congruence.
  assert (Hr' : nth_error row r <> None) by congruence.
  apply nth_error_Some in Hp', Hq', Hr'. lia.
Qed.

Lemma cubic_coords (E : nat) : cubic E (coords E).
Proof.
  unfold cubic, coords. split; [now rewrite length_map, length_seq|].
  apply List.Forall_forall. intros plane Hin.
  apply in_map_iff in Hin. destruct Hin as [a [<- _]].
  split; [now rewrite length_map, length_seq|].
  apply List.Forall_forall. intros row Hin.
  apply in_map_iff in Hin. destruct Hin as [b [<- _]].
  now rewrite length_map, length_seq.
Qed.

Lemma at3_coords (E a b c : nat) :
  (a < E)%nat -> (b < E)%nat -> (c < E)%nat ->
  at3 (coords E) a b c = Some (a, b, c).
Proof.
  intros Ha Hb Hc. unfold at3, coords.
  rewrite nth_error_map, nth_error_seq.
  destruct (Nat.ltb_spec a E) as [_|H]; [|lia]. simpl.
  rewrite nth_error_map, nth_error_seq.
  destruct (Nat.ltb_spec b E) as [_|H]; [|lia]. simpl.
  rewrite nth_error_map, nth_error_seq.
  destruct (Nat.ltb_spec c E) as [_|H]; [|lia]. reflexivity.
Qed.

(** ** split_universe on a cubic volume *)

Section Cubic.
Context {A : Type}.
Variables (E s : nat) (x : volume A).
Hypothesis Hcubic : cubic E x.
Hypothesis Hs : (0 < s)%nat.

Let n := (E / s)%nat.

Lemma blocks_fit : (n * s <= E)%nat.
Proof. subst n. rewrite Nat.mul_comm. apply Nat.Div0.mul_div_le. Qed.

Lemma cubic_plane (plane : list (list A)) :
  In plane x -> length plane = E /\ Forall (fun row => length row = E) plane.
Proof.
  intros Hin. destruct Hcubic as [_ Hall].
  rewrite List.Forall_forall in Hall. now apply Hall.
Qed.

Lemma In_window {B : Type} (l : list B) (a m : nat) (b : B) :
  In b (firstn m (skipn a l)) -> In b l.
Proof.
  intros Hin.
  rewrite <- (firstn_skipn a l). apply in_or_app. right.
  rewrite <- (firstn_skipn m (skipn a l)). apply in_or_app. now left.
Qed.

Lemma slice3_window3 (i j k : nat) :
  (i < n)%nat -> (j < n)%nat -> (k < n)%nat ->
  slice3 x (Z.of_nat i * Z.of_nat s) ((Z.of_nat i + 1) * Z.of_nat s)
           (Z.of_nat j * Z.of_nat s) ((Z.of_nat j + 1) * Z.of_nat s)
           (Z.of_nat k * Z.of_nat s) ((Z.of_nat k + 1) * Z.of_nat s) =
  window3 x s i j k.
Proof.
  intros Hi Hj Hk. pose proof blocks_fit as Hfit.
  assert (Hb : forall t, (t < n)%nat -> (t * s + s <= E)%nat).
  { intros t Ht. apply Nat.le_trans with (n * s)%nat; [|exact Hfit].
    clear Hfit. clearbody n. nia. }
  assert (Hz : forall t : nat,
             (Z.of_nat t * Z.of_nat s = Z.of_nat (t * s)) /\
             ((Z.of_nat t + 1) * Z.of_nat s = Z.of_nat (t * s) + Z.of_nat s))
    by (intros; lia).
  unfold slice3, window3.
  destruct (Hz i) as [-> ->], (Hz j) as [-> ->], (Hz k) as [-> ->].
  destruct Hcubic as [Hlen _].
  rewrite slice_window by (rewrite Hlen; auto).
  apply map_ext_in. intros plane Hplane.
  apply In_window, cubic_plane in Hplane. destruct Hplane as [Hpl Hrows].
  rewrite slice_window by (rewrite Hpl; auto).
  apply map_ext_in. intros row Hrow.
  apply In_window in Hrow. rewrite List.Forall_forall in Hrows.
  rewrite slice_window by (rewrite (Hrows row Hrow); auto).
  reflexivity.
Qed.

(** The yields, with the loop variables as naturals. *)
Lemma split_universe_windows :
  split_universe x (Z.of_nat s) =
  Ok (flat_map (fun i =>
        flat_map (fun j =>
          flat_map (fun k => [window3 x s i j k]) (seq 0 n))
        (seq 0 n))
      (seq 0 n)).
Proof.
  unfold split_universe, floordiv, shape0.
  destruct (Z.eqb_spec (Z.of_nat s) 0) as [H0|_]; [lia|].
  destruct Hcubic as [Hlen _]. rewrite Hlen, <- Nat2Z.inj_div.
  fold n. simpl. f_equal.
  apply flat_map_range. intros i Hi.
  apply flat_map_range. intros j Hj.
  apply flat_map_range. intros k Hk.
  now rewrite slice3_window3.
Qed.

Lemma cubic_window3 (i j k : nat) :
  (i < n)%nat -> (j < n)%nat -> (k < n)%nat -> cubic s (window3 x s i j k).
Proof.
  intros Hi Hj Hk. pose proof blocks_fit as Hfit.
  assert (Hb : forall t, (t < n)%nat -> (t * s + s <= E)%nat).
  { intros t Ht. apply Nat.le_trans with (n * s)%nat; [|exact Hfit].
    clear Hfit. clearbody n. nia. }
  destruct Hcubic as [Hlen _]. unfold cubic, window3. split.
  - rewrite length_map. apply length_window. rewrite Hlen. auto.
  - apply List.Forall_forall. intros plane' Hin.
    apply in_map_iff in Hin. destruct Hin as [plane [<- Hplane]].
    apply In_window, cubic_plane in Hplane. destruct Hplane as [Hpl Hrows].
    split; [rewrite length_map; apply length_window; rewrite Hpl; auto|].
    apply List.Forall_forall. intros row' Hin.
    apply in_map_iff in Hin. destruct Hin as [row [<- Hrow]].
    apply In_window in Hrow. rewrite List.Forall_forall in Hrows.
    apply length_window. rewrite (Hrows row Hrow). auto.
Qed.

(** Count, shape and contents of the yields. *)
Lemma split_universe_cubic :
  exists cubes,
    split_universe x (Z.of_nat s) = Ok cubes /\
    length cubes = (n * n * n)%nat /\
    Forall (cubic s) cubes /\
    (forall i j k, (i < n)%nat -> (j < n)%nat -> (k < n)%nat ->
       nth_error cubes ((i * n + j) * n + k) = Some (window3 x s i j k)).
Proof.
  eexists. split; [apply split_universe_windows|].
  split; [apply length_nest3|].
  split; [|intros; now apply (nth_error_nest3 (window3 x s))].
  apply List.Forall_forall. intros cube Hin.
  apply In_nth_error in Hin. destruct Hin as [idx Hidx].
  assert (Hlt : (idx < n * n * n)%nat).
  { rewrite <- (length_nest3 (window3 x s)).
    apply nth_error_Some. congruence. }
  destruct (nest3_position n idx Hlt) as (i & j & k & Hi & Hj & Hk & ->).
  rewrite (nth_error_nest3 (window3 x s)) in Hidx by assumption.
  injection Hidx as <-. now apply cubic_window3.
Qed.

End Cubic.

(** ** Where the cells of the sub-cubes come from *)

Section Provenance.
Variables (E s : nat).
Hypothesis Hs : (0 < s)%nat.

Let n := (E / s)%nat.

Variable cubes : list (volume (nat * nat * nat)).
Hypothesis Hlen : length cubes = (n * n * n)%nat.
Hypothesis Hnth : forall i j k, (i < n)%nat -> (j < n)%nat -> (k < n)%nat ->
  nth_error cubes ((i * n + j) * n + k) = Some (window3 (coords E) s i j k).

Lemma cell_coords (i j k p q r : nat) :
  (i < n)%nat -> (j < n)%nat -> (k < n)%nat ->
  (p < s)%nat -> (q < s)%nat -> (r < s)%nat ->
  cell cubes ((i * n + j) * n + k, p, q, r)%nat =
  Some (i * s + p, j * s + q, k * s + r)%nat.
Proof.
  intros Hi Hj Hk Hp Hq Hr. unfold cell.
  rewrite Hnth, at3_window3 by assumption.
  pose proof (blocks_fit E s) as Hfit. fold n in Hfit.
  clearbody n. apply at3_coords; nia.
Qed.

Lemma cell_coords_inv (idx p q r a b c : nat) :
  cell cubes (idx, p, q, r) = Some (a, b, c) ->
  exists i j k,
    (i < n)%nat /\ (j < n)%nat /\ (k < n)%nat /\
    (p < s)%nat /\ (q < s)%nat /\ (r < s)%nat /\
    idx = ((i * n + j) * n + k)%nat /\
    a = (i * s + p)%nat /\ b = (j * s + q)%nat /\ c = (k * s + r)%nat.
Proof.
  intros Hcell.
  assert (Hidx : (idx < n * n * n)%nat).
  { rewrite <- Hlen. apply nth_error_Some. unfold cell in Hcell.
    destruct (nth_error cubes idx); [discriminate|congruence]. }
  destruct (nest3_position n idx Hidx) as (i & j & k & Hi & Hj & Hk & ->).
  exists i, j, k.
  assert (Hb : (p < s)%nat /\ (q < s)%nat /\ (r < s)%nat).
  { unfold cell in Hcell. rewrite Hnth in Hcell by assumption.
    eapply at3_cubic_bounds; [|exact Hcell].
    apply (cubic_window3 E s (coords E) (cubic_coords E)); assumption. }
  destruct Hb as (Hp & Hq & Hr).
  rewrite cell_coords in Hcell by assumption.
  injection Hcell as <- <- <-. repeat split; assumption.
Qed.

(** A cell inside the covered region lies in exactly one sub-cube cell. *)
Lemma covered_once (a b c : nat) :
  (a < n * s)%nat -> (b < n * s)%nat -> (c < n * s)%nat ->
  exists! w, cell cubes w = Some (a, b, c).
Proof.
  intros Ha Hb Hc. assert (Hs0 : s <> 0%nat) by lia.
  assert (Hq : forall t, (t < n * s)%nat ->
                         (t / s < n)%nat /\ (t mod s < s)%nat /\
                         t = (t / s * s + t mod s)%nat).
  { intros t Ht. split; [|split].
    - apply Nat.Div0.div_lt_upper_bound. lia.
    - now apply Nat.mod_upper_bound.
    - rewrite Nat.mul_comm. apply Nat.Div0.div_mod. }
  destruct (Hq a Ha) as (Ha1 & Ha2 & Ha3).
  destruct (Hq b Hb) as (Hb1 & Hb2 & Hb3).
  destruct (Hq c Hc) as (Hc1 & Hc2 & Hc3).
  exists (((a / s) * n + b / s) * n + c / s, a mod s, b mod s, c mod s)%nat.
  split.
  - rewrite cell_coords by assumption. congruence.
  - intros [[[idx p] q] r] Hcell.
    apply cell_coords_inv in Hcell.
    destruct Hcell as (i & j & k & Hi & Hj & Hk & Hp & Hq' & Hr & -> & Ea & Eb & Ec).
    assert (Hu : forall t u v, (v < s)%nat -> t = (u * s + v)%nat ->
                               (t / s = u /\ t mod s = v)%nat).
    { intros t u v Hv ->. split.
      - rewrite Nat.div_add_l by exact Hs0. rewrite Nat.div_small by exact Hv. lia.
      - rewrite Nat.add_comm, Nat.Div0.mod_add. now apply Nat.mod_small. }
    destruct (Hu a i p Hp Ea) as [-> ->].
    destruct (Hu b j q Hq' Eb) as [-> ->].
    destruct (Hu c k r Hr Ec) as [-> ->].
    reflexivity.
Qed.

(** A cell with a coordinate in the remainder lies in no sub-cube. *)
Lemma remainder_excluded (a b c : nat) :
  (n * s <= a)%nat \/ (n * s <= b)%nat \/ (n * s <= c)%nat ->
  forall w, cell cubes w <> Some (a, b, c).
Proof.
  intros Hout [[[idx p] q] r] Hcell.
  apply cell_coords_inv in Hcell.
  destruct Hcell as (i & j & k & Hi & Hj & Hk & Hp & Hq & Hr & _ & Ea & Eb & Ec).
  clearbody n. nia.
Qed.

End Provenance.

(** C1.  For a volume of edge [E] and a positive sample size [s],
    [split_universe] raises nothing and yields exactly [(E / s)^3]
    sub-cubes, each of shape [(s, s, s)]; the sub-cube at position
    [(i*n + j)*n + k] holds the cells [x[i*s+p][j*s+q][k*s+r]].  Run on the
    volume whose cells are their own coordinates, every cell of the region
    [[0, n*s)^3] occurs in exactly one cell of one sub-cube (no overlap, no
    gap), so when [E = n*s] the whole volume is covered exactly once, and a
    cell with a coordinate in the remainder [[n*s, E)] occurs in none. *)
Theorem split_universe_partition (E s : nat) :
  (0 < s)%nat ->
  let n := (E / s)%nat in
  (forall (A : Type) (x : volume A),
     cubic E x ->
     exists cubes,
       split_universe x (Z.of_nat s) = Ok cubes /\
       length cubes = (n * n * n)%nat /\
       Forall (cubic s) cubes /\
       (forall i j k p q r,
          (i < n)%nat -> (j < n)%nat -> (k < n)%nat ->
          (p < s)%nat -> (q < s)%nat -> (r < s)%nat ->
          cell cubes ((i * n + j) * n + k, p, q, r)%nat =
          at3 x (i * s + p) (j * s + q) (k * s + r))) /\
  (exists cubes,
     split_universe (coords E) (Z.of_nat s) = Ok cubes /\
     (forall a b c,
        (a < n * s)%nat -> (b < n * s)%nat -> (c < n * s)%nat ->
        exists! w, cell cubes w = Some (a, b, c)) /\
     (E = (n * s)%nat ->
      forall a b c,
        (a < E)%nat -> (b < E)%nat -> (c < E)%nat ->
        exists! w, cell cubes w = Some (a, b, c)) /\
     (forall a b c,
        (n * s <= a)%nat \/ (n * s <= b)%nat \/ (n * s <= c)%nat ->
        forall w, cell cubes w <> Some (a, b, c))).
Proof.
  intros Hs n. split.
  - intros A x Hx.
    destruct (split_universe_cubic E s x Hx Hs)
      as (cubes & Hrun & Hlen & Hshape & Hnth).
    exists cubes. repeat split; try assumption.
    intros i j k p q r Hi Hj Hk Hp Hq Hr. unfold cell.
    rewrite Hnth by assumption. now apply at3_window3.
  - destruct (split_universe_cubic E s (coords E) (cubic_coords E) Hs)
      as (cubes & Hrun & Hlen & _ & Hnth).
    exists cubes. split; [exact Hrun|]. split; [|split].
    + intros a b c. now apply (covered_once E s Hs cubes Hlen Hnth).
    + intros HE a b c Ha Hb Hc.
      apply (covered_once E s Hs cubes Hlen Hnth); fold n; now rewrite <- HE.
    + intros a b c. now apply (remainder_excluded E s Hs cubes Hlen Hnth).
Qed.

(** A 5-cell volume cut with sample size 2: 8 sub-cubes, the last layer
    along each axis left out. *)
Lemma split_universe_partition_witness :
  exists cubes,
    split_universe (coords 5) 2 = Ok cubes /\
    length cubes = 8%nat /\
    (exists! w, cell cubes w = Some (3, 1, 2)%nat) /\
    (forall w, cell cubes w <> Some (4, 0, 0)%nat).
Proof.
  destruct (split_universe_partition 5 2 ltac:(lia)) as [Hany Hcoords].
  destruct Hcoords as (cubes & Hrun & Hin & _ & Hout).
  destruct (Hany _ (coords 5) (cubic_coords 5)) as (cubes' & Hrun' & Hlen & _).
  exists cubes. split; [exact Hrun|].
  split; [rewrite Hrun in Hrun'; injection Hrun' as <-; exact Hlen|].
  split; [apply Hin; simpl; lia|apply Hout; simpl; lia].
Defined.

(** ** Enumeration order *)

Lemma map_flat_map {B C D : Type} (g : C -> D) (f : B -> list C) (l : list B) :
  map g (flat_map f l) = flat_map (fun b => map g (f b)) l.
Proof.
  induction l as [|b l IH]; simpl; [reflexivity|].
  now rewrite map_app, IH.
Qed.

Lemma split_universe_blocks {A : Type} (x : volume A) (size : Z) :
  split_universe x size =
  (try n := floordiv (shape0 x) size in
   Ok (map (sub_cube x size) (block_indices n))).
Proof.
  unfold split_universe, block_indices.
  destruct (floordiv (shape0 x) size) as [n|e]; simpl; [|reflexivity].
  f_equal. rewrite map_flat_map. apply flat_map_ext. intros i.
  rewrite map_flat_map. apply flat_map_ext. intros j.
  rewrite map_flat_map. apply flat_map_ext. intros k.
  reflexivity.
Qed.

Lemma block_indices_nat (n : nat) :
  block_indices (Z.of_nat n) =
  flat_map (fun i =>
    flat_map (fun j =>
      flat_map (fun k => [(Z.of_nat i, Z.of_nat j, Z.of_nat k)]) (seq 0 n))
    (seq 0 n))
  (seq 0 n).
Proof.
  unfold block_indices.
  apply flat_map_range. intros i _.
  apply flat_map_range. intros j _.
  apply flat_map_range. intros k _.
  reflexivity.
Qed.

(** C2.  The yields of [split_universe] are the sub-cubes at the block
    indices [(i, j, k)] of the loop nest, in its order: position
    [(i*n + j)*n + k] of the [n^3] indices is [(i, j, k)], so [i] varies
    slowest and [k] fastest; for a volume of edge [2*size] the eight
    sub-cubes come in the order (0,0,0), (0,0,1), (0,1,0), (0,1,1),
    (1,0,0), (1,0,1), (1,1,0), (1,1,1). *)
Theorem split_universe_order {A : Type} (x : volume A) (size : Z) :
  split_universe x size =
    (try n := floordiv (shape0 x) size in
     Ok (map (sub_cube x size) (block_indices n))) /\
  (forall n : nat,
     length (block_indices (Z.of_nat n)) = (n * n * n)%nat /\
     forall i j k : nat,
       (i < n)%nat -> (j < n)%nat -> (k < n)%nat ->
       nth_error (block_indices (Z.of_nat n)) ((i * n + j) * n + k) =
       Some (Z.of_nat i, Z.of_nat j, Z.of_nat k)) /\
  (size <> 0 -> shape0 x = 2 * size ->
   split_universe x size =
   Ok (map (sub_cube x size)
           [(0, 0, 0); (0, 0, 1); (0, 1, 0); (0, 1, 1);
            (1, 0, 0); (1, 0, 1); (1, 1, 0); (1, 1, 1)])).
Proof.
  split; [apply split_universe_blocks|]. split.
  - intros n. rewrite block_indices_nat. split.
    + apply length_nest3.
    + intros i j k Hi Hj Hk.
      now apply (nth_error_nest3
                   (fun i j k => (Z.of_nat i, Z.of_nat j, Z.of_nat k))).
  - intros Hsize Hshape. rewrite split_universe_blocks.
    unfold floordiv. destruct (Z.eqb_spec size 0) as [H|_]; [contradiction|].
    rewrite Hshape, Z.div_mul by exact Hsize. reflexivity.
Qed.

(** A 4-cell volume cut with sample size 2: the first cell of each yield
    is its corner, and the corners come in the nested order. *)
Lemma split_universe_order_witness :
  nth_error (block_indices 3) 23 = Some (2, 1, 2) /\
  split_universe (coords 4) 2 =
  Ok (map (sub_cube (coords 4) 2)
          [(0, 0, 0); (0, 0, 1); (0, 1, 0); (0, 1, 1);
           (1, 0, 0); (1, 0, 1); (1, 1, 0); (1, 1, 1)]) /\
  (try cubes := split_universe (coords 4) 2 in
   Ok (map (fun cube => at3 cube 0 0 0) cubes)) =
  Ok (map Some [(0, 0, 0); (0, 0, 2); (0, 2, 0); (0, 2, 2);
                (2, 0, 0); (2, 0, 2); (2, 2, 0); (2, 2, 2)]%nat).
Proof.
  destruct (split_universe_order (coords 4) 2) as (_ & Hidx & Htwo).
  split; [|split].
  - destruct (Hidx 3%nat) as [_ Hnth].
    apply (Hnth 2%nat 1%nat 2%nat); lia.
  - apply Htwo; [lia|reflexivity].
  - reflexivity.
Defined.

Example split_universe_2_1 :
  split_universe (coords 2) 1 =
  Ok [ [[[(0,0,0)]]]; [[[(0,0,1)]]]; [[[(0,1,0)]]]; [[[(0,1,1)]]];
       [[[(1,0,0)]]]; [[[(1,0,1)]]]; [[[(1,1,0)]]]; [[[(1,1,1)]]] ]%nat.
Proof. reflexivity. Qed.

(** ** Task partitioning *)

Lemma zsum_app (l1 l2 : list Z) : zsum (l1 ++ l2) = zsum l1 + zsum l2.
Proof.
  induction l1 as [|a l1 IH]; simpl; [reflexivity|].
  unfold zsum in *. simpl. rewrite IH. lia.
Qed.

Lemma zsum_repeat (a : Z) (m : nat) : zsum (repeat a m) = a * Z.of_nat m.
Proof.
  induction m as [|m IH]; [simpl; lia|].
  unfold zsum in *. simpl repeat. simpl fold_right. rewrite IH. lia.
Qed.

Lemma nth_cumsum_from (l : list Z) (acc : Z) (i : nat) :
  (i < length l)%nat ->
  nth i (cumsum_from acc l) 0 = acc + zsum (firstn (S i) l).
Proof.
  revert acc i. induction l as [|a l IH]; intros acc i Hi; simpl in Hi; [lia|].
  destruct i as [|i].
  - simpl. unfold zsum. destruct l; simpl; lia.
  - simpl cumsum_from. simpl nth. rewrite IH by lia.
    change (firstn (S (S i)) (a :: l)) with (a :: firstn (S i) l).
    unfold zsum. simpl. lia.
Qed.

Lemma firstn_repeat {B : Type} (a : B) (i m : nat) :
  firstn i (repeat a m) = repeat a (Nat.min i m).
Proof.
  revert m. induction i as [|i IH]; intros m; [reflexivity|].
  destruct m as [|m]; [reflexivity|]. simpl. now rewrite IH.
Qed.

(** The cut points of [array_split], in closed form. *)
Lemma div_point (q : Z) (e r i : nat) :
  (i <= e + r)%nat ->
  nth i (cumsum ([0] ++ repeat (q + 1) e ++ repeat q r)) 0 =
  q * Z.of_nat i + Z.of_nat (Nat.min i e).
Proof.
  intros Hi. unfold cumsum.
  rewrite nth_cumsum_from
    by (simpl; rewrite length_app, !repeat_length; lia).
  change (firstn (S i) ([0] ++ repeat (q + 1) e ++ repeat q r))
    with (0 :: firstn i (repeat (q + 1) e ++ repeat q r)).
  rewrite firstn_app, !firstn_repeat, repeat_length.
  change (zsum (0 :: ?l)) with (0 + zsum l).
  rewrite zsum_app, !zsum_repeat.
  assert (Hsplit : Z.of_nat i =
                   Z.of_nat (Nat.min i e) + Z.of_nat (Nat.min (i - e) r)) by lia.
  rewrite Hsplit at 1. ring.
Qed.

Lemma firstn_plus {A : Type} (a b : nat) (l : list A) :
  firstn a l ++ firstn b (skipn a l) = firstn (a + b) l.
Proof.
  revert l. induction a as [|a IH]; intros l; [reflexivity|].
  destruct l as [|x l]; simpl.
  - now rewrite firstn_nil.
  - now rewrite IH.
Qed.

Lemma chunk_start_succ (L T t : nat) :
  chunk_start L T (S t) = (chunk_start L T t + chunk_size L T t)%nat.
Proof.
  unfold chunk_start, chunk_size.
  destruct (Nat.ltb_spec t (L mod T)); lia.
Qed.

Lemma chunk_start_end (L T : nat) : (0 < T)%nat -> chunk_start L T T = L.
Proof.
  intros HT. unfold chunk_start.
  pose proof (Nat.mod_upper_bound L T ltac:(lia)) as Hmod.
  pose proof (Nat.Div0.div_mod L T) as Hdiv.
  rewrite Nat.min_r by lia. lia.
Qed.

Lemma chunk_start_mono (L T t : nat) :
  (0 < T)%nat -> (t <= T)%nat -> (chunk_start L T t <= L)%nat.
Proof.
  intros HT Ht. rewrite <- (chunk_start_end L T HT) at 2.
  unfold chunk_start. 
  assert (L / T * t <= L / T * T)%nat by (apply Nat.mul_le_mono_l; exact Ht).
  lia.
Qed.

Lemma concat_chunks {A : Type} (ary : list A) (L T t : nat) :
  concat (map (fun i => firstn (chunk_size L T i) (skipn (chunk_start L T i) ary))
              (seq 0 t)) =
  firstn (chunk_start L T t) ary.
Proof.
  induction t as [|t IH].
  - unfold chunk_start. simpl. now rewrite Nat.mul_0_r.
  - rewrite seq_S, map_app, concat_app, IH. simpl. rewrite app_nil_r.
    rewrite firstn_plus. now rewrite chunk_start_succ.
Qed.

(** [array_split] in terms of the closed-form cut points. *)
Lemma array_split_chunks {A : Type} (ary : list A) (T : nat) :
  (0 < T)%nat ->
  array_split ary (Z.of_nat T) =
  Ok (map (fun t => firstn (chunk_size (length ary) T t)
                           (skipn (chunk_start (length ary) T t) ary))
          (seq 0 T)).
Proof.
  intros HT. unfold array_split.
  destruct (Z.leb_spec (Z.of_nat T) 0) as [H|_]; [lia|].
  f_equal. rewrite range_nat, map_map. apply map_ext_in.
  intros t Ht. apply in_seq in Ht.
  set (L := length ary).
  pose proof (Nat.mod_upper_bound L T ltac:(lia)) as Hmod.
  rewrite <- Nat2Z.inj_div, <- Nat2Z.inj_mod.
  replace (Z.to_nat (Z.of_nat T - Z.of_nat (L mod T))) with (T - L mod T)%nat
    by lia.
  rewrite !Nat2Z.id.
  replace (Z.to_nat (Z.of_nat t + 1)) with (S t) by lia.
  rewrite !div_point by lia.
  pose proof (chunk_start_mono L T (S t) HT ltac:(lia)) as Hend.
  rewrite chunk_start_succ in Hend.
  replace (Z.of_nat (L / T) * Z.of_nat t + Z.of_nat (Nat.min t (L mod T)))
    with (Z.of_nat (chunk_start L T t)) by (unfold chunk_start; lia).
  replace (Z.of_nat (L / T) * Z.of_nat (S t) + Z.of_nat (Nat.min (S t) (L mod T)))
    with (Z.of_nat (chunk_start L T t) + Z.of_nat (chunk_size L T t))
    by (rewrite <- Nat2Z.inj_add, <- chunk_start_succ; unfold chunk_start; lia).
  apply slice_window. fold L. exact Hend.
Qed.

Lemma chunk_size_floor_ceil (L T t : nat) :
  (0 < T)%nat ->
  chunk_size L T t = (L / T)%nat \/ chunk_size L T t = ((L + T - 1) / T)%nat.
Proof.
  intros HT. unfold chunk_size.
  destruct (Nat.ltb_spec t (L mod T)) as [Hlt|_]; [right|left; lia].
  pose proof (Nat.mod_upper_bound L T ltac:(lia)) as Hmod.
  pose proof (Nat.Div0.div_mod L T) as Hdiv.
  apply (Nat.div_unique _ _ _ (L mod T - 1)); lia.
Qed.

Lemma NoDup_app_disjoint {A : Type} (l1 l2 : list A) (a : A) :
  List.NoDup (l1 ++ l2) -> In a l1 -> In a l2 -> False.
Proof.
  induction l1 as [|b l1 IH]; simpl; intros Hnd H1 H2; [exact H1|].
  inversion Hnd as [|? ? Hb Hnd']; subst.
  destruct H1 as [->|H1].
  - apply Hb. apply in_or_app. now right.
  - now apply IH.
Qed.

Lemma NoDup_concat_disjoint {A : Type} (ls : list (list A)) :
  List.NoDup (concat ls) ->
  forall t1 t2 c1 c2 a,
    t1 <> t2 ->
    nth_error ls t1 = Some c1 -> nth_error ls t2 = Some c2 ->
    In a c1 -> In a c2 -> False.
Proof.
  induction ls as [|c ls IH]; intros Hnd t1 t2 c1 c2 a Hne H1 H2 Ha1 Ha2.
  - destruct t1; discriminate.
  - simpl in Hnd.
    assert (Hrest : forall t c', nth_error ls t = Some c' -> In a c' ->
                                 In a (concat ls)).
    { intros t c' Hc' Hin. apply in_concat. exists c'.
      split; [eapply nth_error_In; eassumption|exact Hin]. }
    destruct t1 as [|t1], t2 as [|t2]; simpl in H1, H2.
    + congruence.
    + injection H1 as <-.
      eapply NoDup_app_disjoint; [exact Hnd|exact Ha1|eauto].
    + injection H2 as <-.
      eapply NoDup_app_disjoint; [exact Hnd|exact Ha2|eauto].
    + apply NoDup_app_remove_l in Hnd.
      eapply (IH Hnd t1 t2); eauto.
Qed.

Lemma chunk_in_concat {A : Type} (ls : list (list A)) (t : nat) (c : list A) :
  nth_error ls t = Some c ->
  c = firstn (length c) (skipn (length (concat (firstn t ls))) (concat ls)).
Proof.
  intros Hc.
  rewrite <- (firstn_skipn_middle t ls Hc) at 2.
  rewrite concat_app, concat_cons.
  rewrite skipn_app, Nat.sub_diag, skipn_all, skipn_O. simpl.
  rewrite firstn_app, Nat.sub_diag, firstn_all, firstn_O.
  now rewrite app_nil_r.
Qed.

Lemma array_split_length {A : Type} (ary : list A) (T : Z) :
  0 < T ->
  exists chunks, array_split ary T = Ok chunks /\ length chunks = Z.to_nat T.
Proof.
  intros HT. eexists. split.
  - rewrite <- (Z2Nat.id T) at 1 by lia. apply array_split_chunks. lia.
  - now rewrite length_map, length_seq.
Qed.

(** C4.  For a file list of length [L] and [T >= 1] tasks, [array_split]
    returns [T] chunks whose concatenation in task order is the list
    itself; chunk [t] is the contiguous run that starts where the chunks
    before it end, its size is [floor(L/T)] or [ceil(L/T)], any two sizes
    differ by at most one, task [t] is handed chunk [t], and when the
    paths are distinct no path is in two chunks. *)
Theorem array_split_partition {A : Type} (files : list A) (T : Z) :
  1 <= T ->
  let L := length files in
  let Tn := Z.to_nat T in
  exists chunks,
    array_split files T = Ok chunks /\
    length chunks = Tn /\
    concat chunks = files /\
    (forall t c,
       nth_error chunks t = Some c ->
       c = firstn (length c) (skipn (length (concat (firstn t chunks))) files) /\
       (length c = (L / Tn)%nat \/ length c = ((L + Tn - 1) / Tn)%nat) /\
       task_files files T (Z.of_nat t) = Ok c) /\
    (forall t1 t2 c1 c2,
       nth_error chunks t1 = Some c1 -> nth_error chunks t2 = Some c2 ->
       (length c1 <= length c2 + 1)%nat) /\
    (List.NoDup files ->
     forall t1 t2 c1 c2,
       t1 <> t2 ->
       nth_error chunks t1 = Some c1 -> nth_error chunks t2 = Some c2 ->
       forall f, In f c1 -> ~ In f c2).
Proof.
  intros HT L Tn.
  assert (HTn : (0 < Tn)%nat) by (subst Tn; lia).
  assert (Hrun : array_split files T =
                 Ok (map (fun t => firstn (chunk_size L Tn t)
                                          (skipn (chunk_start L Tn t) files))
                         (seq 0 Tn))).
  { subst L. rewrite <- (array_split_chunks files Tn HTn).
    subst Tn. now rewrite Z2Nat.id by lia. }
  set (chunks := map _ (seq 0 Tn)) in Hrun.
  assert (Hlen : length chunks = Tn)
    by (subst chunks; now rewrite length_map, length_seq).
  assert (Hcat : concat chunks = files).
  { subst chunks. rewrite concat_chunks, chunk_start_end by exact HTn.
    apply firstn_all. }
  assert (Hsize : forall t c, nth_error chunks t = Some c ->
                              (t < Tn)%nat /\ length c = chunk_size L Tn t).
  { intros t c Hc.
    assert (Ht : (t < Tn)%nat)
      by (rewrite <- Hlen; apply nth_error_Some; congruence).
    split; [exact Ht|]. subst chunks.
    rewrite nth_error_map, nth_error_seq in Hc.
    destruct (Nat.ltb_spec t Tn) as [_|H]; [|lia].
    simpl in Hc. injection Hc as <-.
    apply length_window.
    pose proof (chunk_start_mono L Tn (S t) HTn ltac:(lia)) as Hend.
    now rewrite chunk_start_succ in Hend. }
  exists chunks. split; [exact Hrun|]. split; [exact Hlen|].
  split; [exact Hcat|]. split; [|split].
  - intros t c Hc. destruct (Hsize t c Hc) as [Ht Hc_len].
    split; [|split].
    + rewrite <- Hcat at 1. now apply chunk_in_concat.
    + rewrite Hc_len. now apply chunk_size_floor_ceil.
    + unfold task_files. rewrite Hrun. simpl. unfold getitem.
      destruct (Z.ltb_spec (Z.of_nat t) 0) as [H|_]; [lia|].
      rewrite Hlen.
      destruct (Z.ltb_spec (Z.of_nat t) 0) as [H|_]; [lia|].
      destruct (Z.leb_spec (Z.of_nat Tn) (Z.of_nat t)) as [H|_]; [lia|].
      simpl. now rewrite Nat2Z.id, Hc.
  - intros t1 t2 c1 c2 H1 H2.
    destruct (Hsize t1 c1 H1) as [_ ->], (Hsize t2 c2 H2) as [_ ->].
    unfold chunk_size.
    destruct (t1 <? L mod Tn)%nat, (t2 <? L mod Tn)%nat; lia.
  - intros Hnd t1 t2 c1 c2 Hne H1 H2 f Hf1 Hf2.
    rewrite <- Hcat in Hnd.
    exact (NoDup_concat_disjoint chunks Hnd t1 t2 c1 c2 f Hne H1 H2 Hf1 Hf2).
Qed.

(** Seven files over three tasks: sizes 3, 2, 2. *)
Lemma array_split_partition_witness :
  exists chunks,
    array_split [1; 2; 3; 4; 5; 6; 7] 3 = Ok chunks /\
    length chunks = 3%nat /\
    concat chunks = [1; 2; 3; 4; 5; 6; 7].
Proof.
  destruct (array_split_partition [1; 2; 3; 4; 5; 6; 7] 3 ltac:(lia))
    as (chunks & Hrun & Hlen & Hcat & _).
  exists chunks. repeat split; assumption.
Defined.

Example array_split_7_3 :
  array_split [1; 2; 3; 4; 5; 6; 7] 3 = Ok [[1; 2; 3]; [4; 5]; [6; 7]].
Proof. reflexivity. Qed.

Example array_split_2_4 :
  array_split [1; 2] 4 = Ok [[1]; [2]; []; []].
Proof. reflexivity. Qed.

Example task_files_last :
  task_files [1; 2; 3; 4; 5; 6; 7] 3 (-1) = Ok [6; 7].
Proof. reflexivity. Qed.

(** ** Strings *)

Lemma length_append (s1 s2 : string) :
  String.length (s1 +:+ s2) = (String.length s1 + String.length s2)%nat.
Proof. induction s1 as [|c s1 IH]; simpl; [reflexivity|now rewrite IH]. Qed.

Lemma append_cons (c : ascii) (s1 s2 : string) :
  String c s1 +:+ s2 = String c (s1 +:+ s2).
Proof. reflexivity. Qed.

Lemma append_nil_r (s : string) : s +:+ "" = s.
Proof.
  induction s as [|c s IH]; [reflexivity|]. now rewrite append_cons, IH.
Qed.

Lemma append_assoc (s1 s2 s3 : string) :
  (s1 +:+ s2) +:+ s3 = s1 +:+ (s2 +:+ s3).
Proof.
  induction s1 as [|c s1 IH]; [reflexivity|]. now rewrite !append_cons, IH.
Qed.

Lemma substring_all (s : string) : String.substring 0 (String.length s) s = s.
Proof. induction s as [|c s IH]; simpl; [reflexivity|now rewrite IH]. Qed.

Lemma substring_skip (pre s : string) (m : nat) :
  String.substring (String.length pre) m (pre +:+ s) = String.substring 0 m s.
Proof.
  induction pre as [|c pre IH]; [reflexivity|].
  rewrite append_cons. simpl. exact IH.
Qed.

Lemma substring_split (s : string) (k : nat) :
  (k <= String.length s)%nat ->
  String.substring 0 k s +:+ String.substring k (String.length s - k) s = s.
Proof.
  revert k. induction s as [|c s IH]; intros k Hk; simpl in Hk.
  - replace k with 0%nat by lia. reflexivity.
  - destruct k as [|k].
    + change (String.substring 0 0 (String c s)) with EmptyString.
      rewrite Nat.sub_0_r. apply substring_all.
    + change (String.substring 0 (S k) (String c s))
        with (String c (String.substring 0 k s)).
      change (String.substring (S k) (String.length (String c s) - S k)
                               (String c s))
        with (String.substring k (String.length s - k) s).
      rewrite append_cons, IH by lia. reflexivity.
Qed.

(** [endswith] holds exactly of the strings that end in the suffix. *)
Lemma endswith_spec (s suffix : string) :
  endswith s suffix = true <-> exists stem, s = stem +:+ suffix.
Proof.
  unfold endswith. rewrite andb_true_iff, Nat.leb_le, String.eqb_eq. split.
  - intros [Hle Hsub].
    exists (String.substring 0 (String.length s - String.length suffix) s).
    rewrite <- Hsub at 2.
    pose proof (substring_split s (String.length s - String.length suffix)
                  ltac:(lia)) as Hsplit.
    replace (String.length s - (String.length s - String.length suffix))%nat
      with (String.length suffix) in Hsplit by lia.
    now rewrite Hsplit.
  - intros [stem ->]. rewrite length_append. split; [lia|].
    replace (String.length stem + String.length suffix - String.length suffix)%nat
      with (String.length stem) by lia.
    rewrite substring_skip. apply substring_all.
Qed.

Lemma string_leb_trans (s1 s2 s3 : string) :
  String.leb s1 s2 = true -> String.leb s2 s3 = true -> String.leb s1 s3 = true.
Proof.
  unfold String.leb. revert s2 s3.
  induction s1 as [|a s1 IH]; intros [|b s2] [|c s3]; simpl; try congruence.
  destruct (Ascii.compare a b) eqn:Hab; try congruence;
    destruct (Ascii.compare b c) eqn:Hbc; try congruence;
    unfold Ascii.compare in *.
  - apply N.compare_eq in Hab, Hbc. rewrite Hab, Hbc, N.compare_refl. apply IH.
  - apply N.compare_eq in Hab. rewrite Hab, Hbc. auto.
  - apply N.compare_eq in Hbc. rewrite <- Hbc, Hab. auto.
  - rewrite N.compare_lt_iff in Hab, Hbc.
    assert (H : (N_of_ascii a ?= N_of_ascii c)%N = Lt)
      by (apply N.compare_lt_iff; lia).
    rewrite H. auto.
Qed.

(** ** Cancellation *)

Lemma append_inv_head (a b c : string) : a +:+ b = a +:+ c -> b = c.
Proof.
  induction a as [|x a IH]; [auto|].
  rewrite !append_cons. intros [= H]. auto.
Qed.

Lemma append_inv_tail (a b c : string) : a +:+ c = b +:+ c -> a = b.
Proof.
  revert b. induction a as [|x a IH]; intros [|y b] H.
  - reflexivity.
  - apply (f_equal String.length) in H.
    rewrite !length_append in H. simpl in H. lia.
  - apply (f_equal String.length) in H.
    rewrite !length_append in H. simpl in H. lia.
  - rewrite !append_cons in H. injection H as -> H. f_equal. auto.
Qed.

(** ** Paths *)

Lemma has_sep_append (a b : string) :
  has_sep (a +:+ b) = has_sep a || has_sep b.
Proof.
  induction a as [|c a IH]; [reflexivity|].
  rewrite append_cons. cbn [has_sep]. now rewrite IH, orb_assoc.
Qed.

Lemma startswith_sep (b : string) : has_sep b = false -> startswith b "/" = false.
Proof.
  unfold startswith. destruct b as [|c b]; [reflexivity|].
  cbn [has_sep String.prefix]. intros H. apply orb_false_iff in H.
  destruct H as [Hc _]. destruct (ascii_dec "/" c) as [<-|]; [|reflexivity].
  discriminate Hc.
Qed.

Lemma path_join_relative (a b : string) :
  has_sep b = false -> path_join a b = with_sep a +:+ b.
Proof.
  intros Hb. unfold path_join, with_sep. rewrite startswith_sep by exact Hb.
  destruct (String.eqb a "" || endswith a "/"); [reflexivity|].
  now rewrite append_assoc.
Qed.

Lemma head_of_no_sep (b : string) : has_sep b = false -> head_of b = "".
Proof.
  destruct b as [|c b]; [reflexivity|].
  cbn [has_sep head_of]. intros H. apply orb_false_iff in H.
  destruct H as [-> ->]. reflexivity.
Qed.

Lemma head_of_append (stem b : string) :
  has_sep b = false -> head_of ((stem +:+ "/") +:+ b) = stem +:+ "/".
Proof.
  intros Hb. induction stem as [|c stem IH].
  - change (("" +:+ "/") +:+ b) with (String "/" b).
    cbn [head_of]. now rewrite Hb.
  - rewrite !append_cons. cbn [head_of].
    rewrite !has_sep_append, IH. cbn [has_sep Ascii.eqb].
    now rewrite orb_true_r.
Qed.

Lemma with_sep_cases (a : string) :
  (a = "" /\ with_sep a = "") \/
  (a <> "" /\ exists stem, with_sep a = stem +:+ "/").
Proof.
  unfold with_sep. destruct (String.eqb_spec a "") as [->|Hne]; [now left|].
  right. split; [exact Hne|]. cbn [orb].
  destruct (endswith a "/") eqn:He; [|now exists a].
  apply endswith_spec in He. destruct He as [stem ->]. now exists stem.
Qed.

Lemma all_sep_append (a b : string) :
  all_sep (a +:+ b) = all_sep a && all_sep b.
Proof.
  induction a as [|c a IH]; [reflexivity|].
  rewrite append_cons. cbn [all_sep]. now rewrite IH, andb_assoc.
Qed.

Lemma rstrip_sep_append_sep (a : string) :
  rstrip_sep (a +:+ "/") = rstrip_sep a.
Proof.
  induction a as [|c a IH]; [reflexivity|].
  rewrite append_cons. cbn [rstrip_sep all_sep].
  rewrite all_sep_append, IH. cbn [all_sep Ascii.eqb].
  now rewrite !andb_true_r.
Qed.

Lemma all_sep_endswith (a : string) :
  a <> "" -> all_sep a = true -> endswith a "/" = true.
Proof.
  intros Hne Hall. apply endswith_spec.
  induction a as [|c a IH]; [contradiction|].
  cbn [all_sep] in Hall. apply andb_true_iff in Hall.
  destruct Hall as [Hc Hall]. apply Ascii.eqb_eq in Hc. subst c.
  destruct a as [|c' a].
  - now exists "".
  - destruct (IH ltac:(discriminate) Hall) as [stem Hstem].
    exists (String "/" stem). now rewrite append_cons, <- Hstem.
Qed.

Lemma strip_sep_with_sep (a : string) :
  a <> "" -> strip_sep (with_sep a) = strip_sep a.
Proof.
  intros Hne. unfold with_sep.
  destruct (String.eqb_spec a "") as [H|_]; [contradiction|]. cbn [orb].
  destruct (endswith a "/") eqn:He; [reflexivity|].
  unfold strip_sep. rewrite all_sep_append. cbn [all_sep Ascii.eqb].
  rewrite andb_true_r.
  destruct (all_sep a) eqn:Ha.
  - rewrite (all_sep_endswith a Hne Ha) in He. discriminate.
  - apply rstrip_sep_append_sep.
Qed.

(** The directory of a file joined to [out] is [out], without its
    trailing separators. *)
Lemma dirname_path_join (out b : string) :
  has_sep b = false ->
  dirname (path_join out b) = if String.eqb out "" then "" else strip_sep out.
Proof.
  intros Hb. rewrite path_join_relative by exact Hb. unfold dirname.
  destruct (with_sep_cases out) as [[-> Hw]|[Hne [stem Hstem]]].
  - rewrite Hw. change ("" +:+ b) with b.
    now rewrite head_of_no_sep by exact Hb.
  - rewrite Hstem, head_of_append by exact Hb.
    rewrite <- Hstem, strip_sep_with_sep by exact Hne.
    destruct (String.eqb_spec out ""); [contradiction|reflexivity].
Qed.

Lemma append_sep_tail (a b stem : string) :
  a +:+ b = stem +:+ "/" -> b <> "" -> has_sep b = true.
Proof.
  revert stem. induction a as [|c a IH]; intros stem Heq Hb.
  - change ("" +:+ b) with b in Heq. subst b.
    rewrite has_sep_append. cbn [has_sep Ascii.eqb]. apply orb_true_r.
  - destruct stem as [|c' stem].
    + change ("" +:+ "/") with (String "/" "") in Heq.
      rewrite append_cons in Heq. injection Heq as _ Heq.
      destruct a; [|discriminate].
      change ("" +:+ b) with b in Heq. contradiction.
    + rewrite !append_cons in Heq. injection Heq as _ Heq.
      now apply (IH stem).
Qed.

Lemma endswith_sep_append (a b : string) :
  b <> "" -> has_sep b = false -> endswith (a +:+ b) "/" = false.
Proof.
  intros Hne Hb. destruct (endswith (a +:+ b) "/") eqn:He; [|reflexivity].
  apply endswith_spec in He. destruct He as [stem He].
  rewrite (append_sep_tail a b stem He Hne) in Hb. discriminate.
Qed.

(** ** Slices that start at the front *)

Lemma slice_head {A : Type} (l : list A) (N : nat) :
  slice l None (Some (Z.of_nat N)) = firstn N l.
Proof.
  unfold slice, clip_index.
  destruct (Z.ltb_spec (Z.of_nat N) 0) as [H|_]; [lia|].
  rewrite skipn_O, Z.sub_0_r.
  destruct (Nat.le_gt_cases N (length l)) as [Hle|Hgt].
  - rewrite Z.min_l by lia. now rewrite Nat2Z.id.
  - rewrite Z.min_r by lia. rewrite Nat2Z.id.
    rewrite firstn_all. symmetry. apply firstn_all2. lia.
Qed.

Lemma slice_drop_last {A : Type} (l : list A) (m : Z) :
  m < 0 ->
  slice l None (Some m) = firstn (length l - Z.to_nat (- m)) l.
Proof.
  intros Hm. unfold slice, clip_index.
  destruct (Z.ltb_spec m 0) as [_|H]; [|lia].
  rewrite skipn_O, Z.sub_0_r. f_equal. lia.
Qed.

(** ** Discovery *)

Lemma sorted_StronglySorted (files : list string) :
  StronglySorted (fun a b => String.leb a b = true) (sorted files).
Proof.
  apply PathSort.StronglySorted_sort.
  intros a b c. apply string_leb_trans.
Qed.

Lemma sorted_Permutation (files : list string) :
  Permutation files (sorted files).
Proof. apply PathSort.Permuted_sort. Qed.

Lemma in_discovered (input_dir : string) (tree : dir) (p : string) :
  In p (discovered input_dir tree) <->
  exists subdir dirnames subfiles f,
    In (subdir, dirnames, subfiles) (walk input_dir tree) /\
    In f subfiles /\ endswith f "hdf5" = true /\ p = path_join subdir f.
Proof.
  unfold discovered. rewrite in_flat_map. split.
  - intros [[[subdir dirnames] subfiles] [Hwalk Hin]].
    apply in_flat_map in Hin. destruct Hin as [f [Hf Hp]].
    destruct (endswith f "hdf5") eqn:Hend; [|contradiction].
    destruct Hp as [<-|[]].
    exists subdir, dirnames, subfiles, f. auto.
  - intros (subdir & dirnames & subfiles & f & Hwalk & Hf & Hend & ->).
    exists (subdir, dirnames, subfiles). split; [exact Hwalk|].
    apply in_flat_map. exists f. split; [exact Hf|].
    rewrite Hend. now left.
Qed.

Lemma flat_map_flat_map {B C D : Type} (g : C -> list D) (h : B -> list C)
  (l : list B) :
  flat_map g (flat_map h l) = flat_map (fun b => flat_map g (h b)) l.
Proof.
  induction l as [|b l IH]; simpl; [reflexivity|].
  now rewrite flat_map_app, IH.
Qed.

(** The paths found in a directory: its own files, then those of its
    sub-directories. *)
Lemma discovered_Dir (p : string) (subdirs : list (string * dir))
  (subfiles : list string) :
  discovered p (Dir subdirs subfiles) =
  flat_map (fun f => if endswith f "hdf5" then [path_join p f] else []) subfiles
  ++ flat_map (fun entry => discovered (path_join p (fst entry)) (snd entry))
              subdirs.
Proof.
  unfold discovered. cbn [walk flat_map]. f_equal.
  apply flat_map_flat_map.
Qed.

(** ** The files of a tree *)

Lemma dir_induction (P : dir -> Prop) :
  (forall subdirs subfiles,
     List.Forall (fun entry => P (snd entry)) subdirs ->
     P (Dir subdirs subfiles)) ->
  forall d, P d.
Proof.
  intros H. fix IH 1. intros [subdirs subfiles]. apply H.
  induction subdirs as [|[name sub] subdirs IHl]; constructor;
    [apply IH|exact IHl].
Qed.

Lemma entry_name_spec (n : string) :
  entry_name n = true <-> n <> "" /\ has_sep n = false.
Proof.
  unfold entry_name. rewrite andb_true_iff, !negb_true_iff, String.eqb_neq.
  reflexivity.
Qed.

Lemma with_sep_path_join (pre n : string) :
  entry_name n = true ->
  with_sep (path_join pre n) = with_sep pre +:+ n +:+ "/".
Proof.
  intros Hn. apply entry_name_spec in Hn. destruct Hn as [Hne Hsep].
  rewrite path_join_relative by exact Hsep.
  unfold with_sep at 1.
  rewrite endswith_sep_append by assumption.
  assert (Hpath : String.eqb (with_sep pre +:+ n) "" = false).
  { apply String.eqb_neq. intros H. apply (f_equal String.length) in H.
    rewrite length_append in H. destruct n; [contradiction|].
    simpl in H. lia. }
  rewrite Hpath. cbn [orb]. apply append_assoc.
Qed.

Lemma concat_sep_cons (n : string) (l : list string) :
  l <> [] -> String.concat "/" (n :: l) = n +:+ "/" +:+ String.concat "/" l.
Proof. destruct l; [contradiction|reflexivity]. Qed.

Lemma full_path_below (pre n : string) (names : list string) (f : string) :
  entry_name n = true ->
  full_path (path_join pre n) names f = full_path pre (n :: names) f.
Proof.
  intros Hn. unfold full_path. rewrite with_sep_path_join by exact Hn.
  change ((n :: names) ++ [f]) with (n :: (names ++ [f])).
  rewrite concat_sep_cons by (now destruct names).
  now rewrite !append_assoc.
Qed.

Lemma full_path_here (pre f : string) :
  has_sep f = false -> path_join pre f = full_path pre [] f.
Proof. intros Hf. now rewrite path_join_relative. Qed.

Lemma well_named_Dir (subdirs : list (string * dir)) (subfiles : list string) :
  well_named (Dir subdirs subfiles) = true ->
  (forall f, In f subfiles -> entry_name f = true) /\
  (forall n sub, In (n, sub) subdirs ->
                 entry_name n = true /\ well_named sub = true).
Proof.
  cbn [well_named]. rewrite andb_true_iff, !forallb_forall.
  intros [Hfiles Hdirs]. split; [exact Hfiles|].
  intros n sub Hin. apply Hdirs in Hin. now apply andb_true_iff in Hin.
Qed.

Lemma in_own_files (pre : string) (subfiles : list string) (p : string) :
  In p (flat_map (fun f => if endswith f "hdf5" then [path_join pre f] else [])
                 subfiles) <->
  exists f, In f subfiles /\ endswith f "hdf5" = true /\ p = path_join pre f.
Proof.
  rewrite in_flat_map. split.
  - intros (f & Hf & Hp). destruct (endswith f "hdf5") eqn:He; [|contradiction].
    destruct Hp as [<-|[]]. eauto.
  - intros (f & Hf & He & ->). exists f. split; [exact Hf|].
    rewrite He. now left.
Qed.

(** The discovered paths are the paths of the files of the tree whose
    name ends in [hdf5]. *)
Lemma in_discovered_file_at (tree : dir) :
  well_named tree = true ->
  forall pre p,
    In p (discovered pre tree) <->
    exists names f,
      file_at tree names f /\ endswith f "hdf5" = true /\
      p = full_path pre names f.
Proof.
  induction tree as [subdirs subfiles IH] using dir_induction.
  intros Hwell pre p. apply well_named_Dir in Hwell.
  destruct Hwell as [Hfiles Hdirs].
  rewrite discovered_Dir, in_app_iff, in_own_files, in_flat_map.
  rewrite List.Forall_forall in IH. split.
  - intros [(f & Hf & He & ->)|([n sub] & Hin & Hp)].
    + exists [], f. split; [now constructor|]. split; [exact He|].
      apply full_path_here. now apply entry_name_spec, Hfiles.
    + cbn [fst snd] in Hp. destruct (Hdirs n sub Hin) as [Hn Hsub].
      apply (IH (n, sub) Hin Hsub) in Hp.
      destruct Hp as (names & f & Hat & He & ->).
      exists (n :: names), f.
      split; [now apply (file_below _ _ n sub)|]. split; [exact He|].
      now apply full_path_below.
  - intros (names & f & Hat & He & ->).
    inversion Hat as [? ? ? Hf|? ? n sub names' ? Hin Hsub]; subst.
    + left. exists f. split; [exact Hf|]. split; [exact He|].
      symmetry. apply full_path_here. now apply entry_name_spec, Hfiles.
    + right. exists (n, sub). split; [exact Hin|]. cbn [fst snd].
      destruct (Hdirs n sub Hin) as [Hn Hwell].
      apply (IH (n, sub) Hin Hwell). exists names', f.
      split; [exact Hsub|]. split; [exact He|].
      symmetry. now apply full_path_below.
Qed.

Lemma sep_split_inj (a b x y : string) :
  has_sep a = false -> has_sep b = false ->
  a +:+ "/" +:+ x = b +:+ "/" +:+ y -> a = b.
Proof.
  revert b. induction a as [|c a IH]; intros [|c' b] Ha Hb H.
  - reflexivity.
  - exfalso. change ("" +:+ "/" +:+ x) with (String "/" x) in H.
    rewrite append_cons in H. injection H as <- _.
    cbn [has_sep Ascii.eqb] in Hb. discriminate.
  - exfalso. change ("" +:+ "/" +:+ y) with (String "/" y) in H.
    rewrite append_cons in H. injection H as -> _.
    cbn [has_sep Ascii.eqb] in Ha. discriminate.
  - rewrite !append_cons in H. injection H as -> H.
    cbn [has_sep] in Ha, Hb. apply orb_false_iff in Ha, Hb.
    f_equal. apply (IH b); tauto.
Qed.

Lemma full_path_cons (pre n : string) (names : list string) (f : string) :
  full_path pre (n :: names) f =
  with_sep pre +:+ n +:+ "/" +:+ String.concat "/" (names ++ [f]).
Proof.
  unfold full_path. change ((n :: names) ++ [f]) with (n :: (names ++ [f])).
  now rewrite concat_sep_cons by (now destruct names).
Qed.

Lemma NoDup_own_files (pre : string) (subfiles : list string) :
  (forall f, In f subfiles -> entry_name f = true) ->
  List.NoDup subfiles ->
  List.NoDup
    (flat_map (fun f => if endswith f "hdf5" then [path_join pre f] else [])
              subfiles).
Proof.
  intros Hnames Hnd. induction Hnd as [|f l Hf Hnd IH]; [constructor|].
  cbn [flat_map].
  assert (Hrest : forall g, In g l -> entry_name g = true)
    by (intros g Hg; apply Hnames; now right).
  destruct (endswith f "hdf5"); [|now apply IH].
  cbn [app]. constructor; [|now apply IH].
  intros Hin. apply in_own_files in Hin. destruct Hin as (g & Hg & _ & Heq).
  assert (Hfsep : has_sep f = false)
    by (apply entry_name_spec, Hnames; now left).
  assert (Hgsep : has_sep g = false) by (now apply entry_name_spec, Hrest).
  rewrite !path_join_relative in Heq by assumption.
  apply append_inv_head in Heq. now subst g.
Qed.

Lemma distinct_NoDup (names : list string) :
  distinct names = true -> List.NoDup names.
Proof.
  induction names as [|n rest IH]; [constructor|].
  cbn [distinct]. rewrite andb_true_iff, negb_true_iff.
  intros [Hn Hrest]. constructor; [|now apply IH].
  intros Hin.
  assert (Hex : existsb (String.eqb n) rest = true).
  { apply existsb_exists. exists n. split; [exact Hin|apply String.eqb_refl]. }
  rewrite Hex in Hn. discriminate.
Qed.

(** When no directory lists a name twice, no path is discovered twice. *)
Lemma NoDup_discovered (tree : dir) :
  well_named tree = true -> distinct_names tree = true ->
  forall pre, List.NoDup (discovered pre tree).
Proof.
  induction tree as [subdirs subfiles IH] using dir_induction.
  intros Hwell Hdist pre.
  pose proof (in_discovered_file_at _ Hwell pre) as Hmem.
  apply well_named_Dir in Hwell. destruct Hwell as [Hfiles Hdirs].
  cbn [distinct_names] in Hdist. rewrite !andb_true_iff in Hdist.
  destruct Hdist as [[Hnd_files Hnd_dirs] Hsubs].
  apply distinct_NoDup in Hnd_files, Hnd_dirs.
  rewrite forallb_forall in Hsubs.
  rewrite discovered_Dir. clear Hmem.
  assert (Hbelow : forall n sub p,
            In (n, sub) subdirs -> In p (discovered (path_join pre n) sub) ->
            exists r, p = with_sep pre +:+ n +:+ "/" +:+ r).
  { intros n sub p Hin Hp. destruct (Hdirs n sub Hin) as [Hn Hsub].
    apply (in_discovered_file_at sub Hsub) in Hp.
    destruct Hp as (names & f & _ & _ & ->).
    rewrite full_path_below by exact Hn. rewrite full_path_cons. eauto. }
  apply List.NoDup_app.
  - now apply NoDup_own_files.
  - clear Hfiles Hnd_files.
    induction subdirs as [|[n sub] subdirs IHl]; [constructor|].
    cbn [flat_map fst snd]. cbn [map fst] in Hnd_dirs.
    inversion Hnd_dirs as [|? ? Hn Hnd_rest]; subst.
    inversion IH as [|? ? IHsub IHrest]; subst. cbn [snd] in IHsub.
    destruct (Hdirs n sub ltac:(now left)) as [Hname Hsub].
    apply List.NoDup_app.
    + apply IHsub; [exact Hsub|]. apply (Hsubs (n, sub)). now left.
    + apply IHl; try assumption.
      * intros n' sub' Hin. apply Hdirs. now right.
      * intros e He. apply Hsubs. now right.
      * intros n' sub' p Hin. apply Hbelow. now right.
    + intros p Hp Hq. apply in_flat_map in Hq.
      destruct Hq as ([n' sub'] & Hin' & Hq). cbn [fst snd] in Hq.
      destruct (Hbelow n sub p ltac:(now left) Hp) as [r Hr].
      destruct (Hbelow n' sub' p ltac:(now right) Hq) as [r' Hr'].
      rewrite Hr in Hr'. apply append_inv_head in Hr'.
      apply sep_split_inj in Hr'.
      * subst n'. apply Hn. apply in_map_iff. now exists (n, sub').
      * now apply entry_name_spec.
      * apply entry_name_spec. apply (Hdirs n' sub'). now right.
  - intros p Hp Hq. apply in_own_files in Hp.
    destruct Hp as (f & Hf & _ & ->).
    apply in_flat_map in Hq. destruct Hq as ([n sub] & Hin & Hq).
    cbn [fst snd] in Hq. destruct (Hbelow n sub _ Hin Hq) as [r Hr].
    assert (Hfsep : has_sep f = false) by (now apply entry_name_spec, Hfiles).
    rewrite path_join_relative in Hr by exact Hfsep.
    apply append_inv_head in Hr. rewrite Hr in Hfsep.
    rewrite !has_sep_append in Hfsep. cbn [has_sep Ascii.eqb] in Hfsep.
    rewrite orb_true_r in Hfsep. discriminate.
Qed.

(** C5.  [find_files] returns the files of the tree whose name ends in
    [hdf5], sorted by full path, cut to the first [N] when a cap of [N]
    files is given.  In detail, for a tree whose names are file-system
    names (not empty, no ['/']): a path is returned exactly when it is
    the input directory, the names of the directories gone through and
    the name of a file of the tree that ends in the four characters
    [hdf5], with a ['/'] between them; mixed in files of other names are
    left out, and no dot is asked for before [hdf5].  The result is in
    ascending lexicographic order of the full paths, it holds each
    discovered path once per discovery, and no path twice when no
    directory lists a name twice.  With a cap of [N] files the result is
    the first [N] entries of that sorted list. *)
Theorem find_files_sorted_filtered (input_dir : string) (tree : dir) :
  let all := find_files input_dir tree None in
  StronglySorted (fun a b => String.leb a b = true) all /\
  Permutation (discovered input_dir tree) all /\
  (forall p,
     In p all <->
     exists subdir dirnames subfiles f stem,
       In (subdir, dirnames, subfiles) (walk input_dir tree) /\
       In f subfiles /\ f = stem +:+ "hdf5" /\ p = path_join subdir f) /\
  (well_named tree = true ->
   forall p,
     In p all <->
     exists names f stem,
       file_at tree names f /\ f = stem +:+ "hdf5" /\
       p = full_path input_dir names f) /\
  (well_named tree = true -> distinct_names tree = true -> List.NoDup all) /\
  (forall N : nat,
     find_files input_dir tree (Some (Z.of_nat N)) = firstn N all).
Proof.
  unfold find_files. split; [apply sorted_StronglySorted|].
  split; [apply sorted_Permutation|]. split; [|split; [|split]].
  - intros p. split.
    + intros Hin.
      apply (Permutation_in _ (Permutation_sym (sorted_Permutation _))) in Hin.
      apply in_discovered in Hin.
      destruct Hin as (subdir & dirnames & subfiles & f & Hwalk & Hf & Hend & ->).
      apply endswith_spec in Hend. destruct Hend as [stem ->].
      exists subdir, dirnames, subfiles, (stem +:+ "hdf5"), stem. auto.
    + intros (subdir & dirnames & subfiles & f & stem & Hwalk & Hf & -> & ->).
      apply (Permutation_in _ (sorted_Permutation _)).
      apply in_discovered.
      exists subdir, dirnames, subfiles, (stem +:+ "hdf5").
      repeat split; try assumption.
      apply endswith_spec. now exists stem.
  - intros Hwell p. split.
    + intros Hin.
      apply (Permutation_in _ (Permutation_sym (sorted_Permutation _))) in Hin.
      apply (in_discovered_file_at tree Hwell) in Hin.
      destruct Hin as (names & f & Hat & Hend & ->).
      apply endswith_spec in Hend. destruct Hend as [stem ->].
      exists names, (stem +:+ "hdf5"), stem. auto.
    + intros (names & f & stem & Hat & -> & ->).
      apply (Permutation_in _ (sorted_Permutation _)).
      apply (in_discovered_file_at tree Hwell).
      exists names, (stem +:+ "hdf5"). split; [exact Hat|].
      split; [|reflexivity]. apply endswith_spec. now exists stem.
  - intros Hwell Hdist.
    apply (Permutation_NoDup (sorted_Permutation _)).
    now apply NoDup_discovered.
  - intros N. apply slice_head.
Qed.

(** A tree with files of mixed names in three directories.  The file
    [u9.hdf5] two directories down is returned under its full path, and
    so is [u_hdf5], a name with no dot; [u1.h5] is not; no path is
    returned twice; a cap of two keeps the first two. *)
Lemma find_files_sorted_filtered_witness :
  let tree := Dir [("runB", Dir [] ["u2.hdf5"; "notes.txt"]);
                   ("runA", Dir [("deep", Dir [] ["u9.hdf5"])]
                                ["u1.hdf5"; "u1.h5"; "u_hdf5"])]
                  ["readme.md"; "top.hdf5"] in
  let all := find_files "/data" tree None in
  In "/data/runA/deep/u9.hdf5" all /\
  In "/data/runA/u_hdf5" all /\
  ~ In "/data/runA/u1.h5" all /\
  List.NoDup all /\
  find_files "/data" tree (Some 2) = firstn 2 all /\
  all = ["/data/runA/deep/u9.hdf5"; "/data/runA/u1.hdf5"; "/data/runA/u_hdf5";
         "/data/runB/u2.hdf5"; "/data/top.hdf5"].
Proof.
  intros tree all.
  destruct (find_files_sorted_filtered "/data" tree)
    as (_ & _ & _ & Hmem & Hnd & Hcap).
  specialize (Hmem eq_refl). specialize (Hnd eq_refl eq_refl).
  split; [|split; [|split; [|split; [exact Hnd|split]]]].
  - apply Hmem. exists ["runA"; "deep"], "u9.hdf5", "u9.".
    split; [|split; reflexivity].
    apply (file_below _ _ "runA"
             (Dir [("deep", Dir [] ["u9.hdf5"])] ["u1.hdf5"; "u1.h5"; "u_hdf5"]));
      [right; now left|].
    apply (file_below _ _ "deep" (Dir [] ["u9.hdf5"])); [now left|].
    apply file_here. now left.
  - apply Hmem. exists ["runA"], "u_hdf5", "u_".
    split; [|split; reflexivity].
    apply (file_below _ _ "runA"
             (Dir [("deep", Dir [] ["u9.hdf5"])] ["u1.hdf5"; "u1.h5"; "u_hdf5"]));
      [right; now left|].
    apply file_here. right. right. now left.
  - intros Hin. subst all. vm_compute in Hin.
    repeat (destruct Hin as [Hin|Hin]; [discriminate Hin|]). exact Hin.
  - apply (Hcap 2%nat).
  - reflexivity.
Defined.

(** C9.  With a negative cap [m] the result is the slice [files[:m]] of
    the sorted list: all of it except its last [|m|] entries (nothing is
    left when there are no more than [|m|]). *)
Theorem find_files_negative_cap (input_dir : string) (tree : dir) (m : Z) :
  m < 0 ->
  let all := find_files input_dir tree None in
  let kept := find_files input_dir tree (Some m) in
  kept = firstn (length all - Z.to_nat (- m)) all /\
  exists dropped,
    all = kept ++ dropped /\
    length dropped = Nat.min (Z.to_nat (- m)) (length all).
Proof.
  intros Hm all kept.
  assert (Hkept : kept = firstn (length all - Z.to_nat (- m)) all).
  { subst kept all. unfold find_files. now apply slice_drop_last. }
  split; [exact Hkept|].
  exists (skipn (length all - Z.to_nat (- m)) all). split.
  - rewrite Hkept. symmetry. apply firstn_skipn.
  - rewrite length_skipn. lia.
Qed.

Lemma find_files_negative_cap_witness :
  let tree := Dir [("run", Dir [] ["b.hdf5"; "a.hdf5"])] ["c.hdf5"; "c.txt"] in
  find_files "/d" tree (Some (-1)) = ["/d/c.hdf5"; "/d/run/a.hdf5"] /\
  find_files "/d" tree None = ["/d/c.hdf5"; "/d/run/a.hdf5"; "/d/run/b.hdf5"].
Proof.
  destruct (find_files_negative_cap "/d"
              (Dir [("run", Dir [] ["b.hdf5"; "a.hdf5"])] ["c.hdf5"; "c.txt"])
              (-1) ltac:(lia)) as [Hkept _].
  split; [rewrite Hkept|]; reflexivity.
Defined.

Example find_files_mixed :
  let tree := Dir [("runB", Dir [] ["u2.hdf5"; "notes.txt"]);
                   ("runA", Dir [("deep", Dir [] ["u9.hdf5"])] ["u1.hdf5"; "u1.h5"])]
                  ["readme.md"; "top.hdf5"] in
  find_files "/data" tree None =
    ["/data/runA/deep/u9.hdf5"; "/data/runA/u1.hdf5"; "/data/runB/u2.hdf5";
     "/data/top.hdf5"] /\
  find_files "/data" tree (Some 2) =
    ["/data/runA/deep/u9.hdf5"; "/data/runA/u1.hdf5"] /\
  find_files "/data" tree (Some (-1)) =
    ["/data/runA/deep/u9.hdf5"; "/data/runA/u1.hdf5"; "/data/runB/u2.hdf5"] /\
  find_files "/data" tree (Some (-9)) = [].
Proof. repeat split; reflexivity. Qed.

Example replace_examples :
  replace "univ_001.hdf5" ".hdf5" "_007.tfrecord" = "univ_001_007.tfrecord" /\
  replace "a.hdf5.hdf5" ".hdf5" "_X" = "a_X_X" /\
  replace "aaa" "aa" "b" = "ba" /\
  replace "univ_hdf5" ".hdf5" "_007.tfrecord" = "univ_hdf5" /\
  basename "/data/runA/u1.hdf5" = "u1.hdf5" /\
  basename "/data/runA/" = "" /\
  basename "u1.hdf5" = "u1.hdf5" /\
  path_join "/out" "u1.tfrecord" = "/out/u1.tfrecord" /\
  path_join "/out/" "u1.tfrecord" = "/out/u1.tfrecord" /\
  path_join "" "u1.tfrecord" = "u1.tfrecord".
Proof. repeat split; reflexivity. Qed.

(** ** The fields of a record *)

Lemma nth_error_concat {B : Type} (m : nat) (ls : list (list B)) (i p : nat) :
  List.Forall (fun l => length l = m) ls -> (p < m)%nat ->
  nth_error (concat ls) (i * m + p) =
  match nth_error ls i with
  | Some l => nth_error l p
  | None => None
  end.
Proof.
  intros Hall Hp. revert i. induction Hall as [|l ls Hl Hall IH]; intros i.
  - cbn [concat]. now rewrite !nth_error_nil.
  - simpl concat. destruct i as [|i]; simpl nth_error.
    + rewrite nth_error_app1 by lia. reflexivity.
    + rewrite nth_error_app2 by (simpl; lia).
      rewrite <- IH. f_equal. simpl. lia.
Qed.

(** [flatten] is row-major: cell [(p, q, r)] of a sub-cube of edge [s]
    is element [(p*s + q)*s + r] of the flattened sequence. *)
Lemma flatten_row_major {A : Type} (s : nat) (x : volume A) (p q r : nat) :
  cubic s x -> (q < s)%nat -> (r < s)%nat ->
  nth_error (flatten x) ((p * s + q) * s + r) = at3 x p q r.
Proof.
  intros [Hlen Hall] Hq Hr. unfold flatten, at3.
  assert (Hplanes : List.Forall (fun plane => length plane = s) x).
  { apply List.Forall_forall. intros plane Hin.
    rewrite List.Forall_forall in Hall. now apply Hall. }
  assert (Hrows : List.Forall (fun row => length row = s) (concat x)).
  { apply List.Forall_forall. intros row Hin.
    apply in_concat in Hin. destruct Hin as (plane & Hplane & Hrow).
    rewrite List.Forall_forall in Hall.
    destruct (Hall plane Hplane) as [_ Hr'].
    rewrite List.Forall_forall in Hr'. now apply Hr'. }
  rewrite (nth_error_concat s _ _ _ Hrows Hr).
  rewrite (nth_error_concat s _ _ _ Hplanes Hq).
  now destruct (nth_error x p).
Qed.

(** The example holds the flattened sub-cube in [x] and the parameter
    vector in [y], each value converted once. *)
Lemma feature_dict_fields {A F : Type} (f32 : A -> F) (xi : volume A)
  (y : list A) :
  feature_x (feature_dict f32 xi y) = map f32 (flatten xi) /\
  feature_y (feature_dict f32 xi y) = map f32 y.
Proof. split; reflexivity. Qed.

(** ** The effects of process_file *)

Section Effects.
Context {A F : Type}.
Variable f32 : A -> F.

Lemma for_each_ext {X : Type} (l : list X) (f g : X -> action A F unit) :
  (forall v, f v = g v) -> for_each l f = for_each l g.
Proof.
  intros Hfg. induction l as [|v l IH]; simpl; [reflexivity|].
  now rewrite Hfg, IH.
Qed.

Lemma for_each_map {X Y : Type} (g : X -> Y) (l : list X)
  (body : Y -> action A F unit) :
  for_each (map g l) body = for_each l (fun v => body (g v)).
Proof.
  induction l as [|v l IH]; simpl; [reflexivity|]. now rewrite IH.
Qed.

Lemma write_record_ok (p : string) (ex : example F) (w : world A F) :
  can_write w p = true ->
  write_record p ex w =
  (World (<[p := TFRecord ex]> (files w)) (dirs w) (events w ++ [EvWrite p]),
   Ok tt).
Proof.
  unfold can_write, write_record. rewrite !andb_true_iff, !negb_true_iff.
  intros [[[-> ->] ->] ->]. reflexivity.
Qed.

Lemma write_record_fails (p : string) (ex : example F) (w : world A F) :
  can_write w p = false -> exists e, write_record p ex w = (w, Raise e).
Proof.
  unfold can_write, write_record. intros Hno.
  destruct (String.eqb p "" || negb (dir_exists w (dirname p))) eqn:H1; [eauto|].
  destruct (endswith p "/" || bool_decide (p ∈ dirs w)) eqn:H2; [eauto|].
  apply orb_false_iff in H1, H2. destruct H1 as [H1 H1'], H2 as [H2 H2'].
  apply negb_false_iff in H1'. rewrite H1, H1', H2, H2' in Hno. discriminate.
Qed.

(** A write into a directory that is not there. *)
Lemma write_record_no_dir (p : string) (ex : example F) (w : world A F) :
  dir_exists w (dirname p) = false ->
  file_among w (made_dirs (dirname p)) = false ->
  write_record p ex w = (w, Raise NotFoundError).
Proof.
  intros Hdir Hfree. unfold write_record. rewrite Hdir, Hfree. simpl.
  now rewrite orb_true_r.
Qed.

Lemma can_write_dirs (w w' : world A F) (p : string) :
  dirs w' = dirs w -> can_write w' p = can_write w p.
Proof. intros H. unfold can_write, dir_exists. now rewrite H. Qed.

Lemma apply_writes_nil (w : world A F) : apply_writes [] w = w.
Proof. destruct w as [m ds evs]. unfold apply_writes. simpl. now rewrite app_nil_r. Qed.

Lemma run_writes_ok (W : list (string * example F)) (w : world A F) :
  List.Forall (fun pe => can_write w (fst pe) = true) W ->
  run_writes W w = (apply_writes W w, Ok tt).
Proof.
  unfold run_writes. revert w.
  induction W as [|[p ex] W IH]; intros w Hall.
  - now rewrite apply_writes_nil.
  - inversion Hall as [|? ? Hp Hrest]; subst. cbn [fst] in Hp.
    cbn [for_each]. unfold and_then. cbn [fst snd].
    rewrite (write_record_ok p ex w Hp). rewrite IH.
    + unfold apply_writes. cbn [files dirs events fold_left map fst snd].
      now rewrite <- app_assoc.
    + apply List.Forall_forall. intros pe Hpe.
      rewrite List.Forall_forall in Hrest.
      rewrite <- (Hrest pe Hpe). now apply can_write_dirs.
Qed.

(** The first write fails: the call stops there. *)
Lemma run_writes_stops (p : string) (ex : example F)
  (W : list (string * example F)) (w : world A F) (e : exn) :
  write_record p ex w = (w, Raise e) ->
  run_writes ((p, ex) :: W) w = (w, Raise e).
Proof.
  intros Hfail. unfold run_writes. cbn [for_each]. unfold and_then.
  cbn [fst snd]. now rewrite Hfail.
Qed.

(** What a call does when the file is a container with both datasets. *)
Lemma process_file_reads (input_file out : string) (size : Z) (w : world A F)
  (x : volume A) (y : list A) :
  files w !! input_file = Some (Hdf5 x y) ->
  process_file f32 input_file out size w =
  match split_universe x size with
  | Ok cubes =>
      run_writes (writes_of f32 out input_file cubes y)
                 (World (files w) (dirs w) (events w ++ [EvRead input_file]))
  | Raise e =>
      (World (files w) (dirs w) (events w ++ [EvRead input_file]), Raise e)
  end.
Proof.
  intros Hfile. unfold process_file, and_then at 1, read_hdf5, and_then at 1.
  simpl. rewrite Hfile. unfold and_then at 1, lift.
  destruct (split_universe x size) as [cubes|e]; [|reflexivity].
  unfold run_writes, writes_of.
  rewrite (for_each_map (fun ixi : nat * volume A =>
    (output_file_name out input_file (fst ixi), feature_dict f32 (snd ixi) y))).
  erewrite for_each_ext; [reflexivity|]. now intros [i xi].
Qed.

Lemma process_file_unreadable (input_file out : string) (size : Z)
  (w : world A F) :
  (forall x y, files w !! input_file <> Some (Hdf5 x y)) ->
  files w !! input_file <> Some Hdf5Lacking ->
  process_file f32 input_file out size w =
  (World (files w) (dirs w) (events w ++ [EvRead input_file]), Raise OSError).
Proof.
  intros Hfile Hlack.
  unfold process_file, and_then at 1, read_hdf5, and_then at 1.
  simpl. destruct (files w !! input_file) as [[x y| |ex]|] eqn:Hlook;
    try reflexivity.
  - now destruct (Hfile x y).
  - contradiction.
Qed.

Lemma process_file_lacking (input_file out : string) (size : Z)
  (w : world A F) :
  files w !! input_file = Some Hdf5Lacking ->
  process_file f32 input_file out size w =
  (World (files w) (dirs w) (events w ++ [EvRead input_file]), Raise KeyError).
Proof.
  intros Hfile.
  unfold process_file, and_then at 1, read_hdf5, and_then at 1.
  simpl. now rewrite Hfile.
Qed.

(** ** Writes on the file map *)

Lemma lookup_apply_writes (W : list (string * example F)) (w : world A F)
  (p : string) :
  files (apply_writes W w) !! p =
  match last_write W p with
  | Some ex => Some (TFRecord ex)
  | None => files w !! p
  end.
Proof.
  destruct w as [m ds evs]. unfold apply_writes. simpl. revert m.
  induction W as [|[q ex] W IH]; intros m; simpl; [reflexivity|].
  rewrite IH. destruct (last_write W p) as [ex'|]; [reflexivity|].
  destruct (decide (q = p)) as [->|Hne].
  - apply lookup_insert_eq.
  - now apply lookup_insert_ne.
Qed.

Lemma last_write_written (W : list (string * example F)) (p : string) :
  In (EvWrite p) (map (fun pe => EvWrite (fst pe)) W) <->
  exists ex, last_write W p = Some ex.
Proof.
  induction W as [|[q ex] W IH]; simpl.
  - split; [contradiction|intros [ex H]; discriminate].
  - split.
    + intros [Heq|Hin].
      * injection Heq as ->.
        destruct (last_write W p) as [ex'|]; [eauto|].
        destruct (decide (p = p)); [eauto|contradiction].
      * apply IH in Hin. destruct Hin as [ex' ->]. eauto.
    + intros [ex' Hex].
      destruct (last_write W p) as [ex''|] eqn:Hlast.
      * right. apply IH. eauto.
      * destruct (decide (q = p)) as [->|_]; [now left|discriminate].
Qed.

End Effects.

(** C10.  For a volume of positive edge length and a negative sample
    size, [split_universe] yields no sub-cube, and [process_file] reads
    the file, returns without raising and writes no file. *)
Theorem negative_sample_size_writes_nothing {A F : Type} (f32 : A -> F)
  (x : volume A) (y : list A) (size : Z) (input_file out : string)
  (w : world A F) :
  0 < shape0 x -> size < 0 ->
  files w !! input_file = Some (Hdf5 x y) ->
  split_universe x size = Ok [] /\
  process_file f32 input_file out size w =
  (World (files w) (dirs w) (events w ++ [EvRead input_file]), Ok tt).
Proof.
  intros HE Hsize Hfile.
  assert (Hsplit : split_universe x size = Ok []).
  { unfold split_universe, floordiv.
    destruct (Z.eqb_spec size 0) as [H|_]; [lia|]. simpl.
    rewrite range_nonpos; [reflexivity|].
    pose proof (Z_div_mod_eq_full (shape0 x) size) as Hdm.
    pose proof (Z.mod_neg_bound (shape0 x) size Hsize) as Hmod.
    nia. }
  split; [exact Hsplit|].
  now rewrite (process_file_reads f32 _ _ _ _ x y Hfile), Hsplit.
Qed.

Lemma negative_sample_size_writes_nothing_witness :
  let w := World {[ "/data/u.hdf5" := Hdf5 (coords 4) [(1, 2, 3)%nat] ]} ∅ [] in
  split_universe (coords 4) (-2) = Ok [] /\
  process_file (fun v => v) "/data/u.hdf5" "/out" (-2) w =
  (World (files w) (dirs w) [EvRead "/data/u.hdf5"], Ok tt).
Proof.
  apply (negative_sample_size_writes_nothing
           (fun v => v) (coords 4) [(1, 2, 3)%nat] (-2) "/data/u.hdf5" "/out"
           (World {[ "/data/u.hdf5" := Hdf5 (coords 4) [(1, 2, 3)%nat] ]} ∅ []));
    [reflexivity|lia|reflexivity].
Defined.

(** ** main *)


Section Main.
Context {A F : Type}.
Variable f32 : A -> F.

(** [os.makedirs] either raises and changes nothing, or adds the
    directory and those above it. *)
Lemma makedirs_cases (name : string) (w : world A F) :
  (exists e, makedirs name w = (w, Raise e)) \/
  makedirs name w =
  (World (files w)
         (dirs w ∪ list_to_set
            (strip_sep name
               :: ancestors (String.length (strip_sep name)) (strip_sep name)))
         (events w ++ [EvMakedirs name]), Ok tt).
Proof.
  unfold makedirs. cbv zeta.
  destruct (String.eqb name ""); [eauto|].
  destruct (bool_decide _); [eauto|].
  destruct (existsb _ _); [eauto|]. now right.
Qed.

Lemma makedirs_raises_iff (name : string) (w : world A F) :
  (exists e, snd (makedirs name w) = Raise e) <->
  name = "" \/
  exists h,
    In h (strip_sep name
            :: ancestors (String.length (strip_sep name)) (strip_sep name)) /\
    is_Some (files w !! h).
Proof.
  unfold makedirs. cbv zeta.
  destruct (String.eqb_spec name "") as [->|Hname].
  { cbn [snd]. split; eauto. }
  destruct (bool_decide (is_Some (files w !! strip_sep name))) eqn:Hd.
  { apply bool_decide_eq_true in Hd. cbn [snd]. split; [|eauto].
    intros _. right. exists (strip_sep name). split; [now left|exact Hd]. }
  apply bool_decide_eq_false in Hd.
  destruct (existsb _ _) eqn:Hup; cbn [snd].
  - apply existsb_exists in Hup. destruct Hup as (h & Hh & Hfile).
    apply bool_decide_eq_true in Hfile. split; [|eauto].
    intros _. right. exists h. split; [now right|exact Hfile].
  - split; [intros [e H]; discriminate|].
    intros [H|(h & [<-|Hh] & Hfile)]; [contradiction|contradiction|].
    assert (Hex : existsb (fun h => bool_decide (is_Some (files w !! h)))
                    (ancestors (String.length (strip_sep name))
                               (strip_sep name)) = true).
    { apply existsb_exists. exists h. split; [exact Hh|].
      now apply bool_decide_eq_true. }
    rewrite Hex in Hup. discriminate.
Qed.

(** [main], step by step. *)
Lemma main_steps (a : args) (tree : dir) (w : world A F) :
  main f32 a tree w =
  match makedirs (output_dir a) w with
  | (w0, Raise e) => (w0, Raise e)
  | (w0, Ok _) =>
      match task_files (find_files (input_dir a) tree (max_files a))
                       (n_tasks a) (task a) with
      | Raise e => (w0, Raise e)
      | Ok input_files =>
          match Pool (n_workers a) with
          | Raise e => (w0, Raise e)
          | Ok pool =>
              pool_map pool
                (fun f => process_file f32 f (output_dir a) (sample_size a))
                input_files w0
          end
      end
  end.
Proof.
  unfold main, and_then at 1.
  destruct (makedirs (output_dir a) w) as [w0 [[]|e]]; [|reflexivity].
  unfold and_then, lift.
  destruct (task_files _ _ _) as [input_files|e]; [|reflexivity].
  destruct (Pool (n_workers a)) as [pool|e]; reflexivity.
Qed.


Lemma task_files_valid {X : Type} (l : list X) (T t : Z) :
  0 < T -> - T <= t < T -> exists chunk, task_files l T t = Ok chunk.
Proof.
  intros HT Ht.
  destruct (array_split_length l T HT) as (chunks & Hrun & Hlen).
  set (t' := if t <? 0 then t + T else t).
  assert (Ht' : 0 <= t' < T) by (subst t'; destruct (Z.ltb_spec t 0); lia).
  destruct (nth_error chunks (Z.to_nat t')) as [c|] eqn:Hc.
  - exists c. unfold task_files. rewrite Hrun. simpl. unfold getitem.
    rewrite Hlen, Z2Nat.id by lia. fold t'.
    destruct (Z.ltb_spec t' 0) as [H|_]; [lia|].
    destruct (Z.leb_spec T t') as [H|_]; [lia|].
    simpl. now rewrite Hc.
  - apply nth_error_None in Hc. lia.
Qed.







(** ** The events of a run only grow *)






End Main.


Lemma Pool_ok (processes : Z) (pool : nat) :
  Pool processes = Ok pool -> (0 < pool)%nat.
Proof.
  unfold Pool. destruct (Z.ltb_spec processes 1) as [|H]; [discriminate|].
  intros [= <-]. lia.
Qed.

Section Startup.
Context {A F : Type}.
Variable f32 : A -> F.

(** [os.makedirs] goes through when the path is not empty and no regular
    file is at it or above it. *)
Lemma makedirs_ok (name : string) (w : world A F) :
  name <> "" ->
  (forall h, In h (made_dirs name) -> files w !! h = None) ->
  makedirs name w =
  (World (files w) (dirs w ∪ list_to_set (made_dirs name))
         (events w ++ [EvMakedirs name]), Ok tt).
Proof.
  intros Hname Hfree.
  destruct (makedirs_cases name w) as [[e Hraise]|Hok]; [|exact Hok].
  exfalso.
  destruct (proj1 (makedirs_raises_iff name w)) as [H|(h & Hh & Hfile)].
  - exists e. now rewrite Hraise.
  - contradiction.
  - rewrite (Hfree h Hh) in Hfile. now destruct Hfile.
Qed.





(** The run once the directory is made. *)
Lemma main_made (a : args) (tree : dir) (w : world A F) :
  output_dir a <> "" ->
  (forall h, In h (made_dirs (output_dir a)) -> files w !! h = None) ->
  main f32 a tree w =
  let w0 := World (files w) (dirs w ∪ list_to_set (made_dirs (output_dir a)))
                  (events w ++ [EvMakedirs (output_dir a)]) in
  match task_files (find_files (input_dir a) tree (max_files a))
                   (n_tasks a) (task a) with
  | Raise e => (w0, Raise e)
  | Ok input_files =>
      match Pool (n_workers a) with
      | Raise e => (w0, Raise e)
      | Ok pool =>
          pool_map pool
            (fun f => process_file f32 f (output_dir a) (sample_size a))
            input_files w0
      end
  end.
Proof.
  intros Hname Hfree. rewrite main_steps.
  now rewrite (makedirs_ok _ _ Hname Hfree).
Qed.



End Startup.




(** ** Output file names *)

Lemma replace_from_no_occurrence (old new s : string) :
  occurs old s = false -> replace_from 0 old new s = s.
Proof.
  induction s as [|c s IH]; intros Hocc; [reflexivity|].
  cbn [occurs] in Hocc. apply orb_false_iff in Hocc. destruct Hocc as [Hpre Hrest].
  cbn [replace_from]. rewrite Hpre. now rewrite IH.
Qed.

(** A base name in which [.hdf5] does not occur is left as it is, so
    every sub-cube of that file gets the same output name. *)
Lemma output_file_name_no_extension (out input_file : string) (i j : nat) :
  occurs ".hdf5" (basename input_file) = false ->
  output_file_name out input_file i = path_join out (basename input_file) /\
  output_file_name out input_file i = output_file_name out input_file j.
Proof.
  intros Hocc. unfold output_file_name, replace.
  now rewrite !replace_from_no_occurrence by exact Hocc.
Qed.

Lemma prefix_nil (s : string) : String.prefix "" s = true.
Proof. now destruct s. Qed.

Lemma prefix_app (p a b : string) :
  (String.length p <= String.length a)%nat ->
  String.prefix p (a +:+ b) = String.prefix p a.
Proof.
  revert a. induction p as [|c p IH]; intros a Hlen.
  - destruct (a +:+ b), a; reflexivity.
  - destruct a as [|c' a]; [simpl in Hlen; lia|].
    rewrite append_cons. cbn [String.prefix].
    destruct (ascii_dec c c'); [|reflexivity].
    apply IH. simpl in Hlen. lia.
Qed.

Lemma replace_from_skip_all (old new s : string) (skip : nat) :
  (String.length s <= skip)%nat -> replace_from skip old new s = "".
Proof.
  revert skip. induction s as [|c s IH]; intros skip Hlen; [reflexivity|].
  destruct skip as [|skip]; [simpl in Hlen; lia|].
  cbn [replace_from]. apply IH. simpl in Hlen. lia.
Qed.

(** When [.hdf5] occurs in the base name only as its end, [replace]
    swaps that end for the new one. *)
Lemma replace_extension (stem new : string) :
  occurs ".hdf5" (stem +:+ ".hdf") = false ->
  replace (stem +:+ ".hdf5") ".hdf5" new = stem +:+ new.
Proof.
  unfold replace. induction stem as [|c stem IH]; intros Hocc.
  - change ("" +:+ ".hdf5") with ".hdf5". change ("" +:+ new) with new.
    cbn [replace_from String.prefix String.length Nat.sub].
    repeat (match goal with
            | |- context [ascii_dec ?a ?b] =>
                destruct (ascii_dec a b); [|congruence]
            end).
    apply append_nil_r.
  - rewrite append_cons in Hocc. cbn [occurs] in Hocc.
    apply orb_false_iff in Hocc. destruct Hocc as [Hpre Hrest].
    rewrite !append_cons. cbn [replace_from].
    assert (Hlast : String c (stem +:+ ".hdf5") =
                    String c (stem +:+ ".hdf") +:+ "5").
    { rewrite append_cons, append_assoc. reflexivity. }
    assert (Hpre' : String.prefix ".hdf5" (String c (stem +:+ ".hdf5")) = false).
    { rewrite Hlast, prefix_app; [exact Hpre|].
      simpl. rewrite length_append. simpl. lia. }
    rewrite Hpre'. now rewrite IH.
Qed.

(** The digits of ['%03i' % i] read back as [i]. *)
Lemma index_of_format_03i (i : nat) : index_of_digits (format_03i i) = Some i.
Proof.
  unfold format_03i, decimal, index_of_digits.
  set (d := Nat.to_uint i).
  assert (Hd : Nat.of_uint d = i) by apply DecimalNat.Unsigned.of_to.
  assert (Hpad : forall k, (k <= 3)%nat ->
            String.concat "" (repeat "0" k) +:+ NilEmpty.string_of_uint d =
            NilEmpty.string_of_uint (Nat.iter k Decimal.D0 d) /\
            Nat.of_uint (Nat.iter k Decimal.D0 d) = Nat.of_uint d).
  { intros k Hk.
    destruct k as [|[|[|[|k]]]]; [| | | |lia]; split; reflexivity. }
  destruct (Hpad (3 - String.length (NilEmpty.string_of_uint d))%nat
              ltac:(lia)) as [-> Hval].
  rewrite NilEmpty.usu. simpl. now rewrite Hval, Hd.
Qed.

Lemma format_03i_inj (i j : nat) : format_03i i = format_03i j -> i = j.
Proof.
  intros H. apply (f_equal index_of_digits) in H.
  rewrite !index_of_format_03i in H. now injection H.
Qed.

Lemma path_join_inj (out stem b1 b2 : string) :
  path_join out (stem +:+ "_" +:+ b1) = path_join out (stem +:+ "_" +:+ b2) ->
  b1 = b2.
Proof.
  unfold path_join, startswith.
  assert (Hhead : forall b, String.prefix "/" (stem +:+ "_" +:+ b) =
                            String.prefix "/" (stem +:+ "_")).
  { intros b. destruct stem as [|c stem]; [reflexivity|].
    rewrite !append_cons. cbn [String.prefix].
    destruct (ascii_dec "/" c); [|reflexivity].
    now rewrite !prefix_nil. }
  rewrite !Hhead.
  destruct (String.prefix "/" (stem +:+ "_")).
  - intros H. apply append_inv_head in H. now apply append_inv_head in H.
  - destruct (String.eqb out "" || endswith out "/"); intros H;
      repeat apply append_inv_head in H; exact H.
Qed.

(** On a source file whose base name is [stem.hdf5], with no other
    [.hdf5] in it, sub-cube [i] goes to [stem_<i, 3 digits>.tfrecord] in
    the output directory, and distinct sub-cubes go to distinct files. *)
Lemma output_file_name_hdf5 (out input_file stem : string) :
  basename input_file = stem +:+ ".hdf5" ->
  occurs ".hdf5" (stem +:+ ".hdf") = false ->
  (forall i,
     output_file_name out input_file i =
     path_join out (stem +:+ "_" +:+ format_03i i +:+ ".tfrecord")) /\
  (forall i j,
     output_file_name out input_file i = output_file_name out input_file j ->
     i = j).
Proof.
  intros Hbase Hocc.
  assert (Hname : forall i,
            output_file_name out input_file i =
            path_join out (stem +:+ "_" +:+ format_03i i +:+ ".tfrecord")).
  { intros i. unfold output_file_name.
    now rewrite Hbase, replace_extension by exact Hocc. }
  split; [exact Hname|].
  intros i j H. rewrite !Hname in H.
  apply path_join_inj, append_inv_tail in H.
  now apply format_03i_inj.
Qed.

Example output_file_name_univ_distinct (i j : nat) :
  output_file_name "/out" "/data/run1/univ_a10.hdf5" i =
  output_file_name "/out" "/data/run1/univ_a10.hdf5" j ->
  i = j.
Proof.
  apply (output_file_name_hdf5 "/out" "/data/run1/univ_a10.hdf5" "univ_a10");
    reflexivity.
Qed.

Example output_file_name_univ :
  output_file_name "/out" "/data/run1/univ_a10.hdf5" 7 =
  "/out/univ_a10_007.tfrecord".
Proof. reflexivity. Qed.

(** C3, at a file that [find_files] hands over: its name ends in [hdf5]
    but holds no [.hdf5], so [replace] changes nothing.  All eight
    sub-cubes are written to the one path [/out/u_hdf5]; only the last
    record is left and no file [u_hdf5_000.tfrecord] is made. *)
Theorem process_file_names_collide :
  let w := World {[ "/data/u_hdf5" := Hdf5 (coords 2) [(1, 2, 3)%nat] ]}
                 {[ "/out" ]} [] in
  let run := process_file (fun v => v) "/data/u_hdf5" "/out" 1 w in
  find_files "/data" (Dir [] ["u_hdf5"]) None = ["/data/u_hdf5"] /\
  output_file_name "/out" "/data/u_hdf5" 0 = "/out/u_hdf5" /\
  output_file_name "/out" "/data/u_hdf5" 1 = "/out/u_hdf5" /\
  snd run = Ok tt /\
  events (fst run) = EvRead "/data/u_hdf5" :: repeat (EvWrite "/out/u_hdf5") 8 /\
  files (fst run) !! "/out/u_hdf5" =
    Some (TFRecord (Example [(1, 1, 1)%nat] [(1, 2, 3)%nat])) /\
  files (fst run) !! "/out/u_hdf5_000.tfrecord" = None /\
  size (files (fst run)) = 2%nat.
Proof. repeat split; vm_compute; reflexivity. Qed.

(* ================================================================= *)
(** * Further properties *)

(** ** split_universe on any volume *)

Lemma In_range (n i : Z) : In i (range n) <-> 0 <= i < n.
Proof.
  unfold range. rewrite in_map_iff. split.
  - intros (t & <- & Ht). apply in_seq in Ht. lia.
  - intros Hi. exists (Z.to_nat i). split; [lia|]. apply in_seq. lia.
Qed.

Lemma In_block_indices (n i j k : Z) :
  In (i, j, k) (block_indices n) <-> 0 <= i < n /\ 0 <= j < n /\ 0 <= k < n.
Proof.
  unfold block_indices. rewrite in_flat_map. split.
  - intros (i' & Hi & Hin). apply in_flat_map in Hin.
    destruct Hin as (j' & Hj & Hin). apply in_flat_map in Hin.
    destruct Hin as (k' & Hk & [[= <- <- <-]|[]]).
    now rewrite <- !In_range.
  - intros (Hi & Hj & Hk). exists i. rewrite In_range. split; [exact Hi|].
    apply in_flat_map. exists j. rewrite In_range. split; [exact Hj|].
    apply in_flat_map. exists k. rewrite In_range. split; [exact Hk|].
    now left.
Qed.

Lemma length_block_indices (n : Z) :
  length (block_indices n) = (Z.to_nat n * Z.to_nat n * Z.to_nat n)%nat.
Proof.
  destruct (Z.le_gt_cases n 0) as [Hn|Hn].
  - unfold block_indices. rewrite range_nonpos by exact Hn.
    replace (Z.to_nat n) with 0%nat by lia. reflexivity.
  - rewrite <- (Z2Nat.id n) at 1 by lia.
    rewrite block_indices_nat. apply length_nest3.
Qed.

(** X1.  For any volume, cubic or not, and any sample size other than
    zero, [split_universe] raises nothing and yields [n^3] sub-cubes with
    [n = max(0, shape[0] // size)]: the count is taken from the first
    axis alone.  For a positive size every sub-cube has exactly [size]
    planes along the first axis. *)
Theorem split_universe_count {A : Type} (x : volume A) (size : Z) :
  size <> 0 ->
  let n := Z.to_nat (shape0 x / size) in
  exists cubes,
    split_universe x size = Ok cubes /\
    length cubes = (n * n * n)%nat /\
    (0 < size -> Forall (fun cube => length cube = Z.to_nat size) cubes).
Proof.
  intros Hsize n. exists (map (sub_cube x size) (block_indices (shape0 x / size))).
  split; [|split].
  - rewrite split_universe_blocks. unfold floordiv.
    destruct (Z.eqb_spec size 0) as [H|_]; [contradiction|reflexivity].
  - rewrite length_map. apply length_block_indices.
  - intros Hpos. apply List.Forall_forall. intros cube Hin.
    apply in_map_iff in Hin. destruct Hin as ([[i j] k] & <- & Hin).
    apply In_block_indices in Hin. destruct Hin as (Hi & _ & _).
    unfold sub_cube, slice3. rewrite length_map.
    assert (Hfit : size * (shape0 x / size) <= shape0 x)
      by (apply Z.mul_div_le; exact Hpos).
    assert (Hlo : 0 <= i * size) by (apply Z.mul_nonneg_nonneg; lia).
    assert (Hhi : (i + 1) * size <= size * (shape0 x / size)).
    { rewrite (Z.mul_comm size). apply Z.mul_le_mono_nonneg_r; lia. }
    replace (i * size) with (Z.of_nat (Z.to_nat (i * size))) by lia.
    replace ((i + 1) * size)
      with (Z.of_nat (Z.to_nat (i * size)) + Z.of_nat (Z.to_nat size)) by lia.
    unfold shape0 in Hfit, Hhi.
    rewrite slice_window; [apply length_window|]; lia.
Qed.

(** A volume of 5 x 1 x 1 cells cut with sample size 2: still 8 yields. *)
Lemma split_universe_count_witness :
  exists cubes,
    split_universe [[[1]]; [[2]]; [[3]]; [[4]]; [[5]]] 2 = Ok cubes /\
    length cubes = 8%nat.
Proof.
  destruct (split_universe_count [[[1]]; [[2]]; [[3]]; [[4]]; [[5]]] 2
              ltac:(lia)) as (cubes & Hrun & Hlen & _).
  exists cubes. split; [exact Hrun|exact Hlen].
Defined.

Lemma In_slice {A : Type} (l : list A) (start stop : option Z) (a : A) :
  In a (slice l start stop) -> In a l.
Proof. unfold slice. apply In_window. Qed.

(** X2.  Every value in a yielded sub-cube is a value of the volume: the
    sub-cubes are cut out of [x] and nothing else is put in them. *)
Theorem split_universe_cells_from_volume {A : Type} (x : volume A) (size : Z)
  (cubes : list (volume A)) :
  split_universe x size = Ok cubes ->
  forall cube v, In cube cubes -> In v (flatten cube) -> In v (flatten x).
Proof.
  rewrite split_universe_blocks.
  destruct (floordiv (shape0 x) size) as [n|e]; simpl; [|discriminate].
  intros [= <-] cube v Hcube Hv.
  apply in_map_iff in Hcube. destruct Hcube as ([[i j] k] & <- & _).
  unfold flatten, sub_cube, slice3 in *.
  apply in_concat in Hv. destruct Hv as (row' & Hrow' & Hv).
  apply in_concat in Hrow'. destruct Hrow' as (plane' & Hplane' & Hrow').
  apply in_map_iff in Hplane'. destruct Hplane' as (plane & <- & Hplane).
  apply in_map_iff in Hrow'. destruct Hrow' as (row & <- & Hrow).
  apply In_slice in Hv, Hrow, Hplane.
  apply in_concat. exists row. split; [|exact Hv].
  apply in_concat. exists plane. split; assumption.
Qed.

Lemma split_universe_cells_from_volume_witness :
  In 4 (flatten [[[1; 2; 9]]; [[3; 4; 9]]; [[5; 6; 9]]]).
Proof.
  apply (split_universe_cells_from_volume
           [[[1; 2; 9]]; [[3; 4; 9]]; [[5; 6; 9]]] 2
           [ [[[1; 2]]; [[3; 4]]] ] ltac:(reflexivity)
           [[[1; 2]]; [[3; 4]]] 4).
  - now left.
  - simpl. tauto.
Defined.

(** ** When process_file raises *)

Lemma split_universe_raises {A : Type} (x : volume A) (size : Z) :
  (size = 0 -> split_universe x size = Raise ZeroDivisionError) /\
  (size <> 0 -> exists cubes, split_universe x size = Ok cubes).
Proof.
  rewrite split_universe_blocks. unfold floordiv. split.
  - intros ->. reflexivity.
  - intros Hsize. destruct (Z.eqb_spec size 0) as [H|_]; [contradiction|].
    simpl. eauto.
Qed.

(** X3.  Three ways in which [process_file] raises before it writes
    anything.  A path that holds no HDF5 container (no file, or a file of
    another kind) gives [OSError] from the open; a container without one
    of the two datasets gives [KeyError] from the lookup; a container with
    both and sample size zero gives [ZeroDivisionError] from the first
    step of the generator.  In each the file has been opened, no file has
    been written and no directory made.  Other failures exist: a write
    that fails raises too. *)
Theorem process_file_failure {A F : Type} (f32 : A -> F)
  (input_file out : string) (size : Z) (w : world A F) :
  let run := process_file f32 input_file out size w in
  let opened := World (files w) (dirs w) (events w ++ [EvRead input_file]) in
  (files w !! input_file = None \/
   (exists ex, files w !! input_file = Some (TFRecord ex)) ->
   run = (opened, Raise OSError)) /\
  (files w !! input_file = Some Hdf5Lacking ->
   run = (opened, Raise KeyError)) /\
  (forall x y, files w !! input_file = Some (Hdf5 x y) -> size = 0 ->
   run = (opened, Raise ZeroDivisionError)).
Proof.
  intros run opened. subst run opened. split; [|split].
  - intros Hfile. apply process_file_unreadable.
    + intros x y H. rewrite H in Hfile.
      destruct Hfile as [?|[ex ?]]; discriminate.
    + intros H. rewrite H in Hfile.
      destruct Hfile as [?|[ex ?]]; discriminate.
  - apply process_file_lacking.
  - intros x y Hfile ->.
    rewrite (process_file_reads f32 _ _ _ _ x y Hfile).
    destruct (split_universe_raises x 0) as [Hzero _].
    now rewrite (Hzero eq_refl).
Qed.

(** A missing file, a container without its datasets, and a readable
    file with sample size 0. *)
Lemma process_file_failure_witness :
  let w := World {[ "/data/u.hdf5" := Hdf5 (coords 2) [(1, 2, 3)%nat];
                    "/data/v.hdf5" := Hdf5Lacking ]} ∅ [] in
  process_file (fun v => v) "/data/none.hdf5" "/out" 1 w =
    (World (files w) ∅ [EvRead "/data/none.hdf5"], Raise OSError) /\
  process_file (fun v => v) "/data/v.hdf5" "/out" 1 w =
    (World (files w) ∅ [EvRead "/data/v.hdf5"], Raise KeyError) /\
  process_file (fun v => v) "/data/u.hdf5" "/out" 0 w =
    (World (files w) ∅ [EvRead "/data/u.hdf5"], Raise ZeroDivisionError).
Proof.
  intros w. split; [|split].
  - apply (process_file_failure (fun v => v) "/data/none.hdf5" "/out" 1 w).
    left. reflexivity.
  - apply (process_file_failure (fun v => v) "/data/v.hdf5" "/out" 1 w).
    reflexivity.
  - destruct (process_file_failure (fun v => v) "/data/u.hdf5" "/out" 0 w)
      as (_ & _ & Hzero).
    apply (Hzero (coords 2) [(1, 2, 3)%nat]); reflexivity.
Defined.

(** X4.  A sample size larger than the first axis of the volume is not
    an error: [split_universe] yields nothing and [process_file] reads
    the file, writes no output and returns. *)
Theorem oversize_sample_writes_nothing {A F : Type} (f32 : A -> F)
  (x : volume A) (y : list A) (size : Z) (input_file out : string)
  (w : world A F) :
  shape0 x < size ->
  files w !! input_file = Some (Hdf5 x y) ->
  split_universe x size = Ok [] /\
  process_file f32 input_file out size w =
  (World (files w) (dirs w) (events w ++ [EvRead input_file]), Ok tt).
Proof.
  intros Hsize Hfile.
  assert (Hsplit : split_universe x size = Ok []).
  { unfold split_universe, floordiv.
    assert (0 <= shape0 x) by (unfold shape0; lia).
    destruct (Z.eqb_spec size 0) as [H0|_]; [lia|]. simpl.
    now rewrite Z.div_small by lia. }
  split; [exact Hsplit|].
  now rewrite (process_file_reads f32 _ _ _ _ x y Hfile), Hsplit.
Qed.

Lemma oversize_sample_writes_nothing_witness :
  let w := World {[ "/data/u.hdf5" := Hdf5 (coords 4) [(1, 2, 3)%nat] ]} ∅ [] in
  split_universe (coords 4) 128 = Ok [] /\
  process_file (fun v => v) "/data/u.hdf5" "/out" 128 w =
  (World (files w) (dirs w) [EvRead "/data/u.hdf5"], Ok tt).
Proof.
  apply (oversize_sample_writes_nothing
           (fun v => v) (coords 4) [(1, 2, 3)%nat] 128 "/data/u.hdf5" "/out"
           (World {[ "/data/u.hdf5" := Hdf5 (coords 4) [(1, 2, 3)%nat] ]} ∅ []));
    [reflexivity|reflexivity].
Defined.

(** ** The chunk of a task *)

Lemma task_files_chunk {A : Type} (l : list A) (T t : nat) :
  (t < T)%nat ->
  task_files l (Z.of_nat T) (Z.of_nat t) =
  Ok (firstn (chunk_size (length l) T t) (skipn (chunk_start (length l) T t) l)).
Proof.
  intros Ht. unfold task_files.
  rewrite array_split_chunks by lia. simpl. unfold getitem.
  rewrite length_map, length_seq.
  destruct (Z.ltb_spec (Z.of_nat t) 0) as [H|_]; [lia|].
  destruct (Z.ltb_spec (Z.of_nat t) 0) as [H|_]; [lia|].
  destruct (Z.leb_spec (Z.of_nat T) (Z.of_nat t)) as [H|_]; [lia|].
  simpl. rewrite Nat2Z.id, nth_error_map, nth_error_seq.
  destruct (Nat.ltb_spec t T) as [_|H]; [reflexivity|lia].
Qed.

Lemma firstn_1_skipn {A : Type} (l : list A) (t : nat) :
  firstn 1 (skipn t l) =
  match nth_error l t with Some f => [f] | None => [] end.
Proof.
  revert l. induction t as [|t IH]; intros [|a l]; try reflexivity.
  simpl skipn. simpl nth_error. apply IH.
Qed.

(** X5.  With more tasks than files, task [t] is handed the one file at
    position [t] of the sorted list, and the tasks from the number of
    files on are handed nothing. *)
Theorem more_tasks_than_files {A : Type} (l : list A) (T t : Z) :
  Z.of_nat (length l) < T -> 0 <= t < T ->
  task_files l T t =
  Ok (match nth_error l (Z.to_nat t) with Some f => [f] | None => [] end).
Proof.
  intros HL Ht.
  rewrite <- (Z2Nat.id T), <- (Z2Nat.id t) at 1 by lia.
  rewrite task_files_chunk by lia. f_equal.
  set (L := length l) in *. set (Tn := Z.to_nat T). set (tn := Z.to_nat t).
  assert (HLT : (L < Tn)%nat) by (subst Tn; lia).
  unfold chunk_size, chunk_start.
  rewrite Nat.div_small, Nat.mod_small by exact HLT.
  destruct (Nat.ltb_spec tn L) as [Hlt|Hge].
  - rewrite Nat.min_l by lia. simpl. apply firstn_1_skipn.
  - simpl. symmetry.
    destruct (nth_error l tn) eqn:Hnth; [|reflexivity].
    assert (tn < length l)%nat by (apply nth_error_Some; congruence).
    subst L. lia.
Qed.

Lemma more_tasks_than_files_witness :
  task_files ["a"; "b"] 4 1 = Ok ["b"] /\ task_files ["a"; "b"] 4 3 = Ok [].
Proof.
  split.
  - apply (more_tasks_than_files ["a"; "b"] 4 1); simpl; lia.
  - apply (more_tasks_than_files ["a"; "b"] 4 3); simpl; lia.
Defined.

(** X6.  A negative task index is not rejected: [task = -k] selects the
    chunk counted from the end, the same files as [task = n_tasks - k]. *)
Theorem negative_task_index {A : Type} (l : list A) (T t : Z) :
  - T <= t < 0 ->
  task_files l T t = task_files l T (t + T) /\
  exists chunk, task_files l T t = Ok chunk.
Proof.
  intros Ht.
  assert (Hsame : task_files l T t = task_files l T (t + T)).
  { unfold task_files.
    destruct (array_split_length l T ltac:(lia)) as (chunks & -> & Hlen).
    simpl. unfold getitem. cbv zeta. rewrite Hlen, Z2Nat.id by lia.
    assert (H1 : (t <? 0) = true) by (apply Z.ltb_lt; lia).
    assert (H2 : (t + T <? 0) = false) by (apply Z.ltb_ge; lia).
    now rewrite H1, !H2. }
  split; [exact Hsame|].
  apply task_files_valid; lia.
Qed.

Lemma negative_task_index_witness :
  task_files ["a"; "b"; "c"] 2 (-1) = task_files ["a"; "b"; "c"] 2 1 /\
  exists chunk, task_files ["a"; "b"; "c"] 2 (-1) = Ok chunk.
Proof. apply (negative_task_index ["a"; "b"; "c"] 2 (-1)). lia. Defined.

(** X7.  Without [--task] and [--n-tasks] the one task is handed the
    whole list of discovered files. *)
Theorem default_task_gets_all_files {A : Type} (l : list A) (cl : command_line) :
  cli_task cl = None -> cli_n_tasks cl = None ->
  task_files l (n_tasks (parse_args cl)) (task (parse_args cl)) = Ok l.
Proof.
  intros Htask Hn. unfold parse_args. simpl. rewrite Htask, Hn. simpl.
  change 1 with (Z.of_nat 1). change 0 with (Z.of_nat 0).
  rewrite task_files_chunk by lia. f_equal.
  unfold chunk_size, chunk_start.
  rewrite Nat.div_1_r, Nat.mod_1_r. simpl.
  rewrite Nat.add_0_r, Nat.mul_0_r. simpl. apply firstn_all.
Qed.

Lemma default_task_gets_all_files_witness :
  task_files ["a"; "b"; "c"]
    (n_tasks (parse_args (CommandLine None None false None None None None None)))
    (task (parse_args (CommandLine None None false None None None None None))) =
  Ok ["a"; "b"; "c"].
Proof.
  apply (default_task_gets_all_files ["a"; "b"; "c"]
           (CommandLine None None false None None None None None));
    reflexivity.
Defined.

(** ** Caps and listing order in find_files *)

(** X8.  A cap of [N] files keeps [min(N, number found)] files; a cap no
    smaller than the number found changes nothing, a cap of 0 leaves
    nothing, and raising the cap only adds files at the end. *)
Theorem find_files_cap_prefix (input_dir : string) (tree : dir) (N M : nat) :
  let all := find_files input_dir tree None in
  let capped := find_files input_dir tree (Some (Z.of_nat N)) in
  length capped = Nat.min N (length all) /\
  ((length all <= N)%nat -> capped = all) /\
  (N = 0%nat -> capped = []) /\
  ((N <= M)%nat ->
   capped = firstn N (find_files input_dir tree (Some (Z.of_nat M)))).
Proof.
  intros all capped.
  assert (Hcap : forall K, find_files input_dir tree (Some (Z.of_nat K)) =
                           firstn K all)
    by (intros K; unfold find_files; apply slice_head).
  subst capped. rewrite !Hcap. split; [apply length_firstn|].
  split; [apply firstn_all2|]. split; [now intros ->|].
  intros HNM. rewrite firstn_firstn. now rewrite Nat.min_l.
Qed.

Lemma find_files_cap_prefix_witness :
  let tree := Dir [] ["b.hdf5"; "a.hdf5"; "c.hdf5"] in
  find_files "/d" tree (Some 5) = find_files "/d" tree None /\
  find_files "/d" tree (Some 1) = firstn 1 (find_files "/d" tree (Some 2)).
Proof.
  intros tree.
  destruct (find_files_cap_prefix "/d" tree 5 5) as (_ & Hall & _).
  destruct (find_files_cap_prefix "/d" tree 1 2) as (_ & _ & _ & Hpre).
  split; [apply Hall; simpl; lia|apply Hpre; lia].
Defined.

Lemma relisted_discovered :
  (forall d d', relisted d d' ->
     forall p, Permutation (discovered p d) (discovered p d')) /\
  (forall l l', relisted_entries l l' ->
     forall p,
       Permutation
         (flat_map (fun entry => discovered (path_join p (fst entry)) (snd entry)) l)
         (flat_map (fun entry => discovered (path_join p (fst entry)) (snd entry)) l')).
Proof.
  split.
  - apply (relisted_mut
      (fun d d' _ => forall p, Permutation (discovered p d) (discovered p d'))
      (fun l l' _ => forall p,
         Permutation
           (flat_map (fun entry => discovered (path_join p (fst entry)) (snd entry)) l)
           (flat_map (fun entry => discovered (path_join p (fst entry)) (snd entry)) l'))).
    + intros subdirs subdirs' subfiles subfiles' Hfiles _ IH p.
      rewrite !discovered_Dir. apply Permutation_app; [|apply IH].
      now apply Permutation_flat_map.
    + intros p. apply perm_nil.
    + intros name d d' l l' _ IHd _ IHl p. cbn [flat_map fst snd].
      apply Permutation_app; [apply IHd|apply IHl].
    + intros e1 e2 l l' _ IHl p. cbn [flat_map].
      rewrite !app_assoc. apply Permutation_app; [|apply IHl].
      apply Permutation_app_comm.
    + intros l1 l2 l3 _ IH1 _ IH2 p.
      eapply Permutation_trans; [apply IH1|apply IH2].
  - apply (relisted_entries_mut
      (fun d d' _ => forall p, Permutation (discovered p d) (discovered p d'))
      (fun l l' _ => forall p,
         Permutation
           (flat_map (fun entry => discovered (path_join p (fst entry)) (snd entry)) l)
           (flat_map (fun entry => discovered (path_join p (fst entry)) (snd entry)) l'))).
    + intros subdirs subdirs' subfiles subfiles' Hfiles _ IH p.
      rewrite !discovered_Dir. apply Permutation_app; [|apply IH].
      now apply Permutation_flat_map.
    + intros p. apply perm_nil.
    + intros name d d' l l' _ IHd _ IHl p. cbn [flat_map fst snd].
      apply Permutation_app; [apply IHd|apply IHl].
    + intros e1 e2 l l' _ IHl p. cbn [flat_map].
      rewrite !app_assoc. apply Permutation_app; [|apply IHl].
      apply Permutation_app_comm.
    + intros l1 l2 l3 _ IH1 _ IH2 p.
      eapply Permutation_trans; [apply IH1|apply IH2].
Qed.

(** Two sorted lists with the same elements are the same list. *)
Lemma sorted_unique (l1 l2 : list string) :
  StronglySorted (fun a b => String.leb a b = true) l1 ->
  StronglySorted (fun a b => String.leb a b = true) l2 ->
  Permutation l1 l2 -> l1 = l2.
Proof.
  revert l2. induction l1 as [|a l1 IH]; intros l2 H1 H2 Hperm.
  - now apply Permutation_nil in Hperm.
  - destruct l2 as [|b l2];
      [apply Permutation_sym, Permutation_nil in Hperm; discriminate|].
    inversion H1 as [|? ? Hs1 Ha]; subst.
    inversion H2 as [|? ? Hs2 Hb]; subst.
    rewrite List.Forall_forall in Ha, Hb.
    assert (Hab : a = b).
    { assert (Hin_a : In a (b :: l2))
        by (apply (Permutation_in _ Hperm); now left).
      assert (Hin_b : In b (a :: l1))
        by (apply (Permutation_in _ (Permutation_sym Hperm)); now left).
      destruct Hin_a as [->|Hin_a]; [reflexivity|].
      destruct Hin_b as [->|Hin_b]; [reflexivity|].
      apply String.leb_antisym; [now apply Ha|now apply Hb]. }
    subst b. f_equal. apply IH; try assumption.
    now apply Permutation_cons_inv in Hperm.
Qed.

(** X9.  The result of [find_files] does not depend on the order in
    which the operating system lists the entries of any directory: two
    trees that differ only in that order give the same list, with or
    without a cap. *)
Theorem find_files_listing_order (input_dir : string) (tree tree' : dir)
  (max_files : option Z) :
  relisted tree tree' ->
  find_files input_dir tree max_files = find_files input_dir tree' max_files.
Proof.
  intros Hrel. unfold find_files.
  assert (Hsame : sorted (discovered input_dir tree) =
                  sorted (discovered input_dir tree')).
  { apply sorted_unique; try apply sorted_StronglySorted.
    eapply Permutation_trans;
      [apply Permutation_sym, sorted_Permutation|].
    eapply Permutation_trans; [|apply sorted_Permutation].
    now apply (proj1 relisted_discovered). }
  now rewrite Hsame.
Qed.

Lemma find_files_listing_order_witness :
  find_files "/d" (Dir [("r", Dir [] ["a.hdf5"; "b.hdf5"]); ("q", Dir [] [])]
                       ["x.hdf5"; "y.hdf5"]) (Some 3) =
  find_files "/d" (Dir [("q", Dir [] []); ("r", Dir [] ["b.hdf5"; "a.hdf5"])]
                       ["y.hdf5"; "x.hdf5"]) (Some 3).
Proof.
  apply find_files_listing_order.
  apply relisted_Dir; [apply perm_swap|].
  eapply relisted_trans.
  - apply relisted_swap, relisted_nil.
  - apply relisted_cons;
      [apply relisted_Dir; [apply perm_nil|apply relisted_nil]|].
    apply relisted_cons; [|apply relisted_nil].
    apply relisted_Dir; [apply perm_swap|apply relisted_nil].
Defined.

(** ** More on output file names *)

Lemma length_zeros (k : nat) :
  (k <= 3)%nat -> String.length (String.concat "" (repeat "0" k)) = k.
Proof. intros Hk. destruct k as [|[|[|[|k]]]]; [| | | |lia]; reflexivity. Qed.

Lemma length_format_03i (i : nat) :
  String.length (format_03i i) = Nat.max 3 (String.length (decimal i)).
Proof.
  unfold format_03i. rewrite length_append, length_zeros by lia. lia.
Qed.

Lemma decimal_short :
  forallb (fun i => (String.length (decimal i) <=? 3)%nat) (seq 0 1000) = true.
Proof. vm_compute. reflexivity. Qed.

(** X10.  For a source file whose base name is [stem.hdf5], with no other
    [.hdf5] in it, sub-cube [i] is written to [stem_<digits>.tfrecord] in
    the output directory.  The digits read back as [i] and are at least
    three, exactly three below 1000, so an index of 1000 or more is
    written out in full, and no other sub-cube of the file gets the
    same name. *)
Theorem output_file_name_well_formed (out input_file stem : string) (i : nat) :
  basename input_file = stem +:+ ".hdf5" ->
  occurs ".hdf5" (stem +:+ ".hdf") = false ->
  output_file_name out input_file i =
    path_join out (stem +:+ "_" +:+ format_03i i +:+ ".tfrecord") /\
  index_of_digits (format_03i i) = Some i /\
  (3 <= String.length (format_03i i))%nat /\
  ((i < 1000)%nat -> String.length (format_03i i) = 3%nat) /\
  (forall j, output_file_name out input_file j =
             output_file_name out input_file i -> j = i).
Proof.
  intros Hbase Hocc.
  destruct (output_file_name_hdf5 out input_file stem Hbase Hocc)
    as [Hname Hinj].
  split; [apply Hname|]. split; [apply index_of_format_03i|].
  rewrite length_format_03i. split; [lia|]. split; [|intros j; apply Hinj].
  intros Hi. pose proof decimal_short as Hshort.
  rewrite forallb_forall in Hshort.
  specialize (Hshort i ltac:(apply in_seq; lia)).
  apply Nat.leb_le in Hshort. lia.
Qed.

Lemma output_file_name_well_formed_witness :
  output_file_name "/out" "/data/run1/univ_a10.hdf5" 1234 =
    path_join "/out" ("univ_a10" +:+ "_" +:+ format_03i 1234 +:+ ".tfrecord") /\
  index_of_digits (format_03i 1234) = Some 1234%nat.
Proof.
  destruct (output_file_name_well_formed "/out" "/data/run1/univ_a10.hdf5"
              "univ_a10" 1234 ltac:(reflexivity) ltac:(reflexivity))
    as (Hname & Hdigits & _).
  split; [exact Hname|exact Hdigits].
Defined.

Lemma has_sep_basename (p : string) : has_sep (basename p) = false.
Proof.
  induction p as [|c p IH]; [reflexivity|].
  cbn [basename]. destruct (has_sep p) eqn:Hp; [exact IH|].
  destruct (Ascii.eqb c "/") eqn:Hc; [exact Hp|].
  cbn [has_sep]. now rewrite Hc, Hp.
Qed.

Lemma has_sep_replace_from (skip : nat) (old new s : string) :
  has_sep s = false -> has_sep new = false ->
  has_sep (replace_from skip old new s) = false.
Proof.
  intros Hs Hnew. revert skip Hs.
  induction s as [|c s IH]; intros skip Hs; [reflexivity|].
  cbn [has_sep] in Hs. apply orb_false_iff in Hs. destruct Hs as [Hc Hs].
  cbn [replace_from]. destruct skip as [|skip]; [|now apply IH].
  destruct (String.prefix old (String c s)).
  - rewrite has_sep_append, Hnew. now apply IH.
  - cbn [has_sep]. rewrite Hc. now apply IH.
Qed.

Lemma has_sep_string_of_uint (d : Decimal.uint) :
  has_sep (NilEmpty.string_of_uint d) = false.
Proof. induction d; cbn [NilEmpty.string_of_uint has_sep]; auto. Qed.

Lemma has_sep_format_03i (i : nat) : has_sep (format_03i i) = false.
Proof.
  unfold format_03i, decimal. rewrite has_sep_append, has_sep_string_of_uint.
  assert (Hk : (3 - String.length
                      (NilEmpty.string_of_uint (Nat.to_uint i)) <= 3)%nat) by lia.
  destruct (3 - String.length (NilEmpty.string_of_uint (Nat.to_uint i)))%nat
    as [|[|[|[|k]]]]; [| | | |lia]; reflexivity.
Qed.

(** X11.  Whatever the source path, the output file lies directly in the
    output directory: its name is the output directory, a ['/'] unless
    the directory is empty or ends in one, and a file name that holds no
    ['/'], also when the source path is absolute or has directories in
    it. *)
Theorem output_file_in_output_dir (out input_file : string) (i : nat) :
  exists name,
    has_sep name = false /\
    output_file_name out input_file i =
    if String.eqb out "" || endswith out "/" then out +:+ name
    else out +:+ "/" +:+ name.
Proof.
  exists (replace (basename input_file) ".hdf5"
                  ("_" +:+ format_03i i +:+ ".tfrecord")).
  assert (Hname : has_sep (replace (basename input_file) ".hdf5"
                             ("_" +:+ format_03i i +:+ ".tfrecord")) = false).
  { apply has_sep_replace_from; [apply has_sep_basename|].
    rewrite !has_sep_append, has_sep_format_03i. reflexivity. }
  split; [exact Hname|].
  unfold output_file_name, path_join. now rewrite startswith_sep.
Qed.

(** ** A whole call of process_file *)

Lemma last_write_None {F : Type} (W : list (string * example F)) (p : string) :
  ~ In p (map fst W) -> last_write W p = None.
Proof.
  induction W as [|[q ex] W IH]; intros Hp; [reflexivity|].
  simpl in Hp. cbn [last_write]. rewrite IH by tauto.
  destruct (decide (q = p)) as [->|_]; [|reflexivity]. tauto.
Qed.

Lemma last_write_unique {F : Type} (W : list (string * example F))
  (p : string) (ex : example F) :
  List.NoDup (map fst W) -> In (p, ex) W -> last_write W p = Some ex.
Proof.
  induction W as [|[q ex'] W IH]; intros Hnd Hin; [contradiction|].
  simpl in Hnd. inversion Hnd as [|? ? Hq Hnd']; subst.
  cbn [last_write]. destruct Hin as [[= -> ->]|Hin].
  - rewrite last_write_None by exact Hq.
    destruct (decide (p = p)); [reflexivity|contradiction].
  - now rewrite IH.
Qed.

Lemma NoDup_map_inj {B C : Type} (f : B -> C) (l : list B) :
  (forall a b, f a = f b -> a = b) -> List.NoDup l -> List.NoDup (map f l).
Proof.
  intros Hinj Hnd. induction Hnd as [|a l Ha Hnd IH]; simpl; constructor.
  - intros Hin. apply in_map_iff in Hin. destruct Hin as (b & Hb & Hin).
    apply Hinj in Hb. now subst b.
  - exact IH.
Qed.

Lemma In_combine_seq {X : Type} (l : list X) (start idx : nat) (v : X) :
  nth_error l idx = Some v -> In ((start + idx)%nat, v) (combine (seq start (length l)) l).
Proof.
  revert start idx. induction l as [|a l IH]; intros start idx Hv.
  - destruct idx; discriminate.
  - destruct idx as [|idx]; simpl in Hv |- *.
    + injection Hv as ->. left. f_equal. lia.
    + right. replace (start + S idx)%nat with (S start + idx)%nat by lia.
      now apply IH.
Qed.

Lemma map_fst_combine_seq {X : Type} (l : list X) (start : nat) :
  map fst (combine (seq start (length l)) l) = seq start (length l).
Proof.
  revert start. induction l as [|a l IH]; intros start; [reflexivity|].
  simpl. now rewrite IH.
Qed.

Lemma length_concat_uniform {B : Type} (m : nat) (ls : list (list B)) :
  List.Forall (fun l => length l = m) ls ->
  length (concat ls) = (length ls * m)%nat.
Proof.
  induction 1 as [|l ls Hl Hall IH]; [reflexivity|].
  simpl. rewrite length_app, IH, Hl. reflexivity.
Qed.

Lemma length_flatten_cubic {A : Type} (s : nat) (x : volume A) :
  cubic s x -> length (flatten x) = (s * s * s)%nat.
Proof.
  intros [Hlen Hall]. unfold flatten.
  assert (Hplanes : List.Forall (fun plane => length plane = s) x).
  { apply List.Forall_forall. intros plane Hin.
    rewrite List.Forall_forall in Hall. now apply Hall. }
  assert (Hrows : List.Forall (fun row => length row = s) (concat x)).
  { apply List.Forall_forall. intros row Hin.
    apply in_concat in Hin. destruct Hin as (plane & Hplane & Hrow).
    rewrite List.Forall_forall in Hall.
    destruct (Hall plane Hplane) as [_ Hr'].
    rewrite List.Forall_forall in Hr'. now apply Hr'. }
  rewrite (length_concat_uniform s _ Hrows).
  rewrite (length_concat_uniform s _ Hplanes). now rewrite Hlen.
Qed.

(** ** Where the output files go *)

(** A named file can be written into an output directory that is there,
    unless a directory has its path. *)
Lemma can_write_path_join {A F : Type} (w : world A F) (out b : string) :
  b <> "" -> has_sep b = false ->
  out = "" \/ strip_sep out ∈ dirs w ->
  path_join out b ∉ dirs w ->
  can_write w (path_join out b) = true.
Proof.
  intros Hne Hb Hdir Hfree. unfold can_write, dir_exists.
  rewrite dirname_path_join by exact Hb.
  rewrite path_join_relative in * by exact Hb.
  rewrite endswith_sep_append by assumption.
  rewrite (bool_decide_eq_false_2 _ Hfree).
  assert (Hpath : String.eqb (with_sep out +:+ b) "" = false).
  { apply String.eqb_neq. intros H. apply (f_equal String.length) in H.
    rewrite length_append in H. destruct b; [contradiction|].
    simpl in H. lia. }
  rewrite Hpath. cbn [negb andb].
  destruct (String.eqb_spec out "") as [_|Hout]; [reflexivity|].
  destruct Hdir as [H|H]; [contradiction|].
  rewrite (bool_decide_eq_true_2 _ H). now rewrite orb_true_r.
Qed.

Lemma all_sep_rstrip_sep (a : string) :
  all_sep a = false -> all_sep (rstrip_sep a) = false.
Proof.
  induction a as [|c a IH]; [discriminate|].
  intros Hall. cbn [rstrip_sep]. rewrite Hall.
  cbn [all_sep] in Hall |- *.
  destruct (Ascii.eqb c "/"); [|reflexivity].
  cbn [andb] in Hall |- *. now apply IH.
Qed.

(** The first file name of a call: a name without separator, joined to
    the output directory. *)
Lemma output_file_name_relative (out input_file : string) (i : nat) :
  exists name,
    has_sep name = false /\ output_file_name out input_file i = path_join out name.
Proof.
  exists (replace (basename input_file) ".hdf5"
                  ("_" +:+ format_03i i +:+ ".tfrecord")).
  split; [|reflexivity].
  apply has_sep_replace_from; [apply has_sep_basename|].
  rewrite !has_sep_append, has_sep_format_03i. reflexivity.
Qed.

(** X12.  One call on a readable cubic volume of edge [E], with a
    positive sample size [s] and a source file named [stem.hdf5] with no
    other [.hdf5] in its name, when the output directory is there (or is
    the working directory, the empty path) and no directory has the path
    of an output file: the call returns, reads the file once and writes
    the [n^3] files [stem_000.tfrecord], [stem_001.tfrecord], ... in that
    order ([n = E // s]).  The file of index [(i*n + j)*n + k] holds one
    record whose field [y] is the parameter vector and whose field [x]
    has [s^3] values, the cell [x[i*s+p][j*s+q][k*s+r]] of the volume at
    position [(p*s + q)*s + r]; every other file is left as it was, and
    no directory is made. *)
Theorem process_file_writes_every_sub_cube {A F : Type} (f32 : A -> F)
  (E s : nat) (x : volume A) (y : list A) (input_file out stem : string)
  (w : world A F) :
  cubic E x -> (0 < s)%nat ->
  files w !! input_file = Some (Hdf5 x y) ->
  basename input_file = stem +:+ ".hdf5" ->
  occurs ".hdf5" (stem +:+ ".hdf") = false ->
  out = "" \/ strip_sep out ∈ dirs w ->
  let n := (E / s)%nat in
  let name idx := path_join out (stem +:+ "_" +:+ format_03i idx +:+ ".tfrecord") in
  let run := process_file f32 input_file out (Z.of_nat s) w in
  (forall idx, (idx < n * n * n)%nat -> name idx ∉ dirs w) ->
  snd run = Ok tt /\
  events (fst run) =
    events w ++ EvRead input_file
             :: map (fun idx => EvWrite (name idx)) (seq 0 (n * n * n)) /\
  (forall i j k, (i < n)%nat -> (j < n)%nat -> (k < n)%nat ->
     exists ex,
       files (fst run) !! name ((i * n + j) * n + k)%nat = Some (TFRecord ex) /\
       feature_y ex = map f32 y /\
       length (feature_x ex) = (s * s * s)%nat /\
       forall p q r, (p < s)%nat -> (q < s)%nat -> (r < s)%nat ->
         nth_error (feature_x ex) ((p * s + q) * s + r) =
         option_map f32 (at3 x (i * s + p) (j * s + q) (k * s + r))) /\
  (forall path, (forall idx, (idx < n * n * n)%nat -> path <> name idx) ->
     files (fst run) !! path = files w !! path) /\
  dirs (fst run) = dirs w.
Proof.
  intros Hx Hs Hfile Hbase Hocc Hdir n name run Hfree.
  destruct (split_universe_cubic E s x Hx Hs)
    as (cubes & Hrun & Hlen & _ & Hnth).
  fold n in Hlen, Hnth.
  destruct (output_file_name_hdf5 out input_file stem Hbase Hocc)
    as [Hname Hinj].
  fold name in Hname.
  set (W := writes_of f32 out input_file cubes y).
  assert (Hpaths : map fst W = map name (seq 0 (n * n * n))).
  { subst W. unfold writes_of. rewrite map_map. cbn [fst].
    rewrite <- Hlen. unfold enumerate.
    rewrite <- (map_fst_combine_seq cubes 0) at 2.
    rewrite map_map. apply map_ext. intros [idx cube]. apply Hname. }
  assert (Hstem : has_sep stem = false).
  { pose proof (has_sep_basename input_file) as H.
    rewrite Hbase, has_sep_append in H. now apply orb_false_iff in H. }
  assert (Hcan : forall idx, (idx < n * n * n)%nat ->
                   can_write
                     (World (files w) (dirs w) (events w ++ [EvRead input_file]))
                     (name idx) = true).
  { intros idx Hidx. subst name. cbv beta.
    apply can_write_path_join.
    - destruct stem; discriminate.
    - rewrite !has_sep_append, Hstem, has_sep_format_03i. reflexivity.
    - exact Hdir.
    - now apply Hfree. }
  assert (Hrun' : run = (apply_writes W (World (files w) (dirs w)
                           (events w ++ [EvRead input_file])), Ok tt)).
  { subst run. rewrite (process_file_reads f32 _ _ _ _ x y Hfile), Hrun.
    apply run_writes_ok. apply List.Forall_forall. intros pe Hpe.
    assert (Hin : In (fst pe) (map fst W)) by now apply in_map.
    rewrite Hpaths in Hin. apply in_map_iff in Hin.
    destruct Hin as (idx & <- & Hidx). apply in_seq in Hidx.
    apply Hcan. lia. }
  assert (Hnd : List.NoDup (map fst W)).
  { rewrite Hpaths. apply NoDup_map_inj; [|apply seq_NoDup].
    intros a b Hab. apply Hinj. now rewrite !Hname. }
  rewrite Hrun'. cbn [fst snd]. split; [reflexivity|].
  split; [|split; [|split; [|reflexivity]]].
  - unfold apply_writes. cbn [events]. rewrite <- app_assoc. cbn [app].
    do 2 f_equal. rewrite <- (map_map fst EvWrite), Hpaths.
    now rewrite map_map.
  - intros i j k Hi Hj Hk.
    exists (feature_dict f32 (window3 x s i j k) y).
    split; [|split; [reflexivity|split]].
    + rewrite lookup_apply_writes.
      rewrite (last_write_unique W _ (feature_dict f32 (window3 x s i j k) y));
        [reflexivity|exact Hnd|].
      subst W. unfold writes_of. apply in_map_iff.
      exists (((i * n + j) * n + k)%nat, window3 x s i j k).
      cbn [fst snd]. split; [now rewrite Hname|].
      apply (In_combine_seq cubes 0). now apply Hnth.
    + cbn [feature_dict feature_x]. rewrite length_map.
      apply length_flatten_cubic. now apply (cubic_window3 E s x Hx).
    + intros p q r Hp Hq Hr. cbn [feature_dict feature_x].
      rewrite nth_error_map.
      rewrite (flatten_row_major s) by
        (try assumption; now apply (cubic_window3 E s x Hx)).
      now rewrite at3_window3.
  - intros path Hpath. rewrite lookup_apply_writes. cbn [files].
    rewrite last_write_None; [reflexivity|].
    rewrite Hpaths. intros Hin. apply in_map_iff in Hin.
    destruct Hin as (idx & Hidx & Hin). apply in_seq in Hin.
    apply (Hpath idx); [lia|now symmetry].
Qed.

(** A 4 x 4 x 4 volume cut with sample size 2 into the directory [/out]:
    eight files. *)
Lemma process_file_writes_every_sub_cube_witness :
  let w := World {[ "/data/u.hdf5" := Hdf5 (coords 4) [(9, 9, 9)%nat] ]}
                 {[ "/out" ]} [] in
  let run := process_file (fun v => v) "/data/u.hdf5" "/out" 2 w in
  snd run = Ok tt /\
  events (fst run) =
    EvRead "/data/u.hdf5"
      :: map (fun idx => EvWrite (path_join "/out"
                ("u" +:+ "_" +:+ format_03i idx +:+ ".tfrecord")))
             (seq 0 8) /\
  files (fst run) !! "/data/u.hdf5" = files w !! "/data/u.hdf5".
Proof.
  intros w run.
  assert (Hfree : forall idx, (idx < 4 / 2 * (4 / 2) * (4 / 2))%nat ->
            path_join "/out" ("u" +:+ "_" +:+ format_03i idx +:+ ".tfrecord")
              ∉ dirs w).
  { intros idx Hidx Hin. subst w. cbn [dirs] in Hin.
    apply elem_of_singleton in Hin.
    do 8 (destruct idx as [|idx]; [discriminate|]). simpl in Hidx. lia. }
  destruct (process_file_writes_every_sub_cube (fun v => v) 4 2 (coords 4)
              [(9, 9, 9)%nat] "/data/u.hdf5" "/out" "u" w
              (cubic_coords 4) ltac:(lia) ltac:(reflexivity)
              ltac:(reflexivity) ltac:(reflexivity)
              ltac:(right; now apply elem_of_singleton) Hfree)
    as (Hok & Hev & _ & Hrest & _).
  split; [exact Hok|]. split; [exact Hev|].
  apply Hrest. intros idx Hidx.
  do 8 (destruct idx as [|idx]; [discriminate|]). simpl in Hidx. lia.
Defined.

Lemma rstrip_sep_idem (a : string) : rstrip_sep (rstrip_sep a) = rstrip_sep a.
Proof.
  induction a as [|c a IH]; [reflexivity|].
  destruct (all_sep (String c a)) eqn:Hall.
  - cbn [rstrip_sep]. now rewrite Hall.
  - pose proof (all_sep_rstrip_sep _ Hall) as Hstrip.
    cbn [rstrip_sep] in Hstrip |- *. rewrite Hall in Hstrip |- *.
    cbn [rstrip_sep]. now rewrite Hstrip, IH.
Qed.

Lemma strip_sep_idem (a : string) : strip_sep (strip_sep a) = strip_sep a.
Proof.
  unfold strip_sep. destruct (all_sep a) eqn:Hall.
  - now rewrite Hall.
  - rewrite (all_sep_rstrip_sep a Hall). apply rstrip_sep_idem.
Qed.

(** X17.  The output directory is not made by [process_file]: when it is
    missing (it is not the root or the working directory, and no regular
    file is at its place or above it), a call on a readable cubic volume
    that yields at least one sub-cube ([0 < s <= E]) raises
    [NotFoundError] at its first write.  The file has been read and
    nothing has been written. *)
Theorem process_file_missing_output_dir {A F : Type} (f32 : A -> F)
  (E s : nat) (x : volume A) (y : list A) (input_file out : string)
  (w : world A F) :
  cubic E x -> (0 < s <= E)%nat ->
  files w !! input_file = Some (Hdf5 x y) ->
  all_sep out = false -> strip_sep out ∉ dirs w ->
  (forall h, In h (made_dirs out) -> files w !! h = None) ->
  process_file f32 input_file out (Z.of_nat s) w =
  (World (files w) (dirs w) (events w ++ [EvRead input_file]),
   Raise NotFoundError).
Proof.
  intros Hx [Hs HE] Hfile Hout Hdir Hfree.
  destruct (split_universe_cubic E s x Hx Hs)
    as (cubes & Hrun & Hlen & _ & _).
  rewrite (process_file_reads f32 _ _ _ _ x y Hfile), Hrun.
  assert (Hn : (0 < E / s)%nat) by (apply Nat.div_str_pos; lia).
  destruct cubes as [|cube cubes]; [simpl in Hlen; nia|].
  unfold writes_of, enumerate. cbn [length seq combine map fst snd].
  destruct (output_file_name_relative out input_file 0) as (name & Hname & ->).
  assert (Hd : dirname (path_join out name) = strip_sep out).
  { rewrite dirname_path_join by exact Hname.
    destruct (String.eqb_spec out "") as [->|_];
      [discriminate Hout|reflexivity]. }
  apply run_writes_stops. apply write_record_no_dir; rewrite Hd.
  - unfold dir_exists. cbn [dirs].
    assert (Hstrip : all_sep (strip_sep out) = false).
    { unfold strip_sep. rewrite Hout. now apply all_sep_rstrip_sep. }
    rewrite Hstrip. cbn [orb]. now apply bool_decide_eq_false_2.
  - unfold file_among, made_dirs. rewrite strip_sep_idem. cbn [files].
    destruct (existsb _ _) eqn:Hex; [|reflexivity].
    apply existsb_exists in Hex. destruct Hex as (h & Hh & Hfileh).
    apply bool_decide_eq_true in Hfileh.
    rewrite (Hfree h Hh) in Hfileh. now destruct Hfileh.
Qed.

Lemma process_file_missing_output_dir_witness :
  let w := World {[ "/data/u.hdf5" := Hdf5 (coords 4) [(9, 9, 9)%nat] ]} ∅ [] in
  process_file (fun v => v) "/data/u.hdf5" "/out" 2 w =
  (World (files w) ∅ [EvRead "/data/u.hdf5"], Raise NotFoundError).
Proof.
  intros w.
  apply (process_file_missing_output_dir (fun v => v) 4 2 (coords 4)
           [(9, 9, 9)%nat] "/data/u.hdf5" "/out" w (cubic_coords 4));
    [lia|reflexivity|reflexivity|apply not_elem_of_empty|].
  intros h [<-|[<-|[]]]; reflexivity.
Defined.

(** ** What a run touches *)

Lemma task_files_sublist {X : Type} (l chunk : list X) (T t : Z) :
  task_files l T t = Ok chunk -> forall f, In f chunk -> In f l.
Proof.
  unfold task_files, array_split.
  destruct (T <=? 0); [discriminate|]. simpl. unfold getitem.
  destruct (_ || _); [discriminate|].
  destruct (nth_error _ _) as [c|] eqn:Hc; [|discriminate].
  intros [= <-] f Hf. apply nth_error_In in Hc.
  apply in_map_iff in Hc. destruct Hc as (i & <- & _).
  now apply In_slice in Hf.
Qed.

Lemma allowed_mono (out : string) (l l' : list string) (ev : event) :
  (forall f, In f l -> In f l') -> allowed out l ev -> allowed out l' ev.
Proof.
  intros Hsub. destruct ev as [p|f|p]; simpl; [tauto|apply Hsub|].
  intros (f & i & Hf & ->). eauto.
Qed.

Section Touches.
Context {A F : Type}.
Variable f32 : A -> F.
Variable out : string.

Lemma touches_refl (l : list string) (w : world A F) : touches out l w w.
Proof.
  exists []. rewrite app_nil_r. repeat split. constructor.
Qed.

Lemma touches_trans (l : list string) (w1 w2 w3 : world A F) :
  touches out l w1 w2 -> touches out l w2 w3 -> touches out l w1 w3.
Proof.
  intros (new1 & Hev1 & Hall1 & Hd1 & Hf1) (new2 & Hev2 & Hall2 & Hd2 & Hf2).
  exists (new1 ++ new2). split; [now rewrite Hev2, Hev1, app_assoc|].
  split; [apply Forall_app; now split|].
  split; [now rewrite Hd2|].
  intros p Hp. now rewrite Hf2, Hf1.
Qed.

Lemma touches_mono (l l' : list string) (w w' : world A F) :
  (forall f, In f l -> In f l') -> touches out l w w' -> touches out l' w w'.
Proof.
  intros Hsub (new & Hev & Hall & Hd & Hf). exists new. split; [exact Hev|].
  split; [|split; [exact Hd|]].
  - rewrite List.Forall_forall in Hall. apply List.Forall_forall.
    intros ev Hev'. eapply allowed_mono; eauto.
  - intros p Hp. apply Hf. intros f i Hin. apply Hp. auto.
Qed.

(** A run of writes carries out the writes up to the first that fails. *)
Lemma run_writes_prefix (W : list (string * example F)) (w : world A F) :
  exists done rest,
    W = done ++ rest /\ fst (run_writes W w) = apply_writes done w.
Proof.
  unfold run_writes. revert w.
  induction W as [|[p ex] W IH]; intros w.
  - exists [], []. split; [reflexivity|]. now rewrite apply_writes_nil.
  - cbn [for_each]. unfold and_then. cbn [fst snd].
    destruct (can_write w p) eqn:Hcan.
    + rewrite (write_record_ok p ex w Hcan).
      destruct (IH (World (<[p := TFRecord ex]> (files w)) (dirs w)
                          (events w ++ [EvWrite p])))
        as (done & rest & -> & Hrun).
      exists ((p, ex) :: done), rest. split; [reflexivity|].
      rewrite Hrun. unfold apply_writes.
      cbn [files dirs events fold_left map fst snd].
      now rewrite <- app_assoc.
    + destruct (write_record_fails p ex w Hcan) as [e ->].
      exists [], ((p, ex) :: W). split; [reflexivity|].
      now rewrite apply_writes_nil.
Qed.

Lemma process_file_touches (f : string) (size : Z) (w : world A F) :
  touches out [f] w (fst (process_file f32 f out size w)).
Proof.
  assert (Hquiet : touches out [f] w
                     (World (files w) (dirs w) (events w ++ [EvRead f]))).
  { exists [EvRead f]. repeat split.
    constructor; [simpl; now left|constructor]. }
  destruct (files w !! f) as [[x y| |ex]|] eqn:Hfile.
  - rewrite (process_file_reads f32 _ _ _ _ x y Hfile).
    destruct (split_universe x size) as [cubes|e]; [|exact Hquiet].
    eapply touches_trans; [exact Hquiet|].
    set (W := writes_of f32 out f cubes y).
    destruct (run_writes_prefix W
                (World (files w) (dirs w) (events w ++ [EvRead f])))
      as (done & rest & HW & ->).
    assert (Hnames : forall pe, In pe done ->
                       exists i, fst pe = output_file_name out f i).
    { intros pe Hpe.
      assert (Hin : In pe W) by (rewrite HW; apply in_or_app; now left).
      subst W. unfold writes_of in Hin.
      apply in_map_iff in Hin. destruct Hin as ([i xi] & <- & _). eauto. }
    exists (map (fun pe => EvWrite (fst pe)) done).
    split; [reflexivity|]. split; [|split; [reflexivity|]].
    + apply List.Forall_forall. intros ev Hev.
      apply in_map_iff in Hev. destruct Hev as (pe & <- & Hpe).
      destruct (Hnames pe Hpe) as [i ->]. simpl. exists f, i.
      split; [now left|reflexivity].
    + intros p Hp. rewrite lookup_apply_writes.
      rewrite last_write_None; [reflexivity|].
      intros Hin. apply in_map_iff in Hin. destruct Hin as (pe & <- & Hpe).
      destruct (Hnames pe Hpe) as [i Hi].
      apply (Hp f i); [now left|exact Hi].
  - rewrite process_file_lacking by exact Hfile. exact Hquiet.
  - rewrite process_file_unreadable
      by (intros; rewrite Hfile; discriminate). exact Hquiet.
  - rewrite process_file_unreadable
      by (intros; rewrite Hfile; discriminate). exact Hquiet.
Qed.

Lemma for_each_touches (size : Z) (l : list string) (w : world A F) :
  touches out l w
    (fst (for_each l (fun f => process_file f32 f out size) w)).
Proof.
  revert w. induction l as [|f l IH]; intros w; [apply touches_refl|].
  cbn [for_each]. unfold and_then.
  pose proof (process_file_touches f size w) as Hf.
  destruct (process_file f32 f out size w) as [w1 [[]|e]]; cbn [fst] in *.
  - eapply touches_trans.
    + eapply touches_mono; [|exact Hf]. intros f' [<-|[]]. now left.
    + eapply touches_mono; [|apply IH]. intros f' Hf'. now right.
  - eapply touches_mono; [|exact Hf]. intros f' [<-|[]]. now left.
Qed.

Lemma run_chunks_touches (size : Z) (chunks : list (list string))
  (w : world A F) :
  touches out (concat chunks) w
    (fst (run_chunks (fun f => process_file f32 f out size) chunks w)).
Proof.
  revert w. induction chunks as [|chunk rest IH]; intros w;
    [apply touches_refl|].
  cbn [run_chunks concat].
  pose proof (for_each_touches size chunk w) as Hchunk.
  destruct (for_each chunk _ w) as [w1 r1]. cbn [fst] in Hchunk.
  pose proof (IH w1) as Hrest.
  destruct (run_chunks _ rest w1) as [w2 r2]. cbn [fst] in *.
  eapply touches_trans.
  - eapply touches_mono; [|exact Hchunk]. intros f Hf.
    apply in_or_app. now left.
  - eapply touches_mono; [|exact Hrest]. intros f Hf.
    apply in_or_app. now right.
Qed.

Lemma get_tasks_subset {X : Type} (fuel size : nat) (l : list X) (v : X) :
  In v (concat (get_tasks fuel size l)) -> In v l.
Proof.
  revert l. induction fuel as [|fuel IH]; intros l Hv; [contradiction|].
  destruct l as [|a l]; [contradiction|].
  cbn [get_tasks concat] in Hv. apply in_app_or in Hv.
  rewrite <- (firstn_skipn size (a :: l)). apply in_or_app.
  destruct Hv as [Hv|Hv]; [now left|right]. now apply IH.
Qed.

End Touches.

(** X13.  What a run may touch.  When the output directory cannot be
    made (the path is empty, or a regular file is at it or above it) the
    run raises at once and the world is as it was.  Otherwise the run
    makes the output directory and those above it, and after that it only
    reads files that [find_files] returned and only writes output files
    named after one of them; every other path holds what it held before
    the run, whatever the outcome. *)
Theorem main_touches_only {A F : Type} (f32 : A -> F) (a : args) (tree : dir)
  (w : world A F) :
  let found := find_files (input_dir a) tree (max_files a) in
  let run := main f32 a tree w in
  (output_dir a = "" \/
   (exists h, In h (made_dirs (output_dir a)) /\ is_Some (files w !! h)) ->
   exists e, run = (w, Raise e)) /\
  (output_dir a <> "" ->
   (forall h, In h (made_dirs (output_dir a)) -> files w !! h = None) ->
   exists new,
     events (fst run) = events w ++ EvMakedirs (output_dir a) :: new /\
     Forall (allowed (output_dir a) found) new /\
     dirs (fst run) = dirs w ∪ list_to_set (made_dirs (output_dir a)) /\
     forall p,
       (forall f i, In f found -> p <> output_file_name (output_dir a) f i) ->
       files (fst run) !! p = files w !! p).
Proof.
  intros found run. subst run. rewrite main_steps. cbn zeta. fold found.
  split.
  - intros Hbad. apply (makedirs_raises_iff (output_dir a) w) in Hbad.
    destruct (makedirs_cases (output_dir a) w) as [[e ->]|Hok]; [eauto|].
    rewrite Hok in Hbad. destruct Hbad as [e Hbad]. discriminate.
  - intros Hname Hfree. rewrite (makedirs_ok _ _ Hname Hfree).
    set (w0 := World (files w)
                     (dirs w ∪ list_to_set (made_dirs (output_dir a)))
                     (events w ++ [EvMakedirs (output_dir a)])).
    assert (Hdone : forall w' : world A F,
              touches (output_dir a) found w0 w' ->
              exists new,
                events w' = events w ++ EvMakedirs (output_dir a) :: new /\
                Forall (allowed (output_dir a) found) new /\
                dirs w' = dirs w ∪ list_to_set (made_dirs (output_dir a)) /\
                forall p,
                  (forall f i, In f found ->
                               p <> output_file_name (output_dir a) f i) ->
                  files w' !! p = files w !! p).
    { intros w' (new & Hev & Hall & Hd & Hfiles). exists new.
      split; [rewrite Hev; subst w0; cbn [events]; now rewrite <- app_assoc|].
      split; [exact Hall|]. split; [exact Hd|].
      intros p Hp. now rewrite Hfiles. }
    destruct (task_files found (n_tasks a) (task a))
      as [input_files|e] eqn:Htask; [|apply Hdone, touches_refl].
    destruct (Pool (n_workers a)) as [pool|e]; [|apply Hdone, touches_refl].
    apply Hdone. unfold pool_map.
    eapply touches_mono; [|apply run_chunks_touches].
    intros f Hf. apply get_tasks_subset in Hf.
    now apply (task_files_sublist found input_files _ _ Htask).
Qed.

(** An empty output path, and a run over one file into [/scratch/out]. *)
Lemma main_touches_only_witness :
  let w := World {[ "/data/u.hdf5" := Hdf5 (coords 2) [(9, 9, 9)%nat] ]} ∅ [] in
  let tree := Dir [] ["u.hdf5"; "notes.txt"] in
  let a0 := Args "/data" "" false 1 None 1 0 1 in
  let a1 := Args "/data" "/scratch/out" false 1 None 1 0 1 in
  (exists e, main (fun v => v) a0 tree w = (w, Raise e)) /\
  (exists new,
     events (fst (main (fun v => v) a1 tree w)) =
       EvMakedirs "/scratch/out" :: new /\
     dirs (fst (main (fun v => v) a1 tree w)) =
       ∅ ∪ list_to_set ["/scratch/out"; "/scratch"; "/"] /\
     files (fst (main (fun v => v) a1 tree w)) !! "/data/u.hdf5" =
       Some (Hdf5 (coords 2) [(9, 9, 9)%nat])).
Proof.
  intros w tree a0 a1. split.
  - apply (main_touches_only (fun v => v) a0 tree w). now left.
  - destruct (main_touches_only (fun v => v) a1 tree w) as [_ Hrun].
    destruct Hrun as (new & Hev & _ & Hd & Hfiles).
    + discriminate.
    + intros h [<-|[<-|[<-|[]]]]; reflexivity.
    + exists new. split; [exact Hev|]. split; [exact Hd|].
      rewrite Hfiles; [reflexivity|].
      intros f i _ H. unfold a1 in H. cbn [output_dir] in H.
      destruct (output_file_name_relative "/scratch/out" f i)
        as (name & Hsep & Hname).
      rewrite Hname in H. unfold path_join in H.
      destruct (startswith name "/").
      * subst name. discriminate.
      * cbv in H. discriminate.
Defined.

(** X14.  A task with nothing to do is not an error.  When the output
    directory can be made (its path is not empty and no regular file is
    at it or above it) and no file is found, or the task index is at
    least the number of files found, a run with valid task and worker
    counts makes the output directory, reads and writes nothing, and
    returns. *)
Theorem main_nothing_to_do {A F : Type} (f32 : A -> F) (a : args) (tree : dir)
  (w : world A F) :
  let found := find_files (input_dir a) tree (max_files a) in
  output_dir a <> "" ->
  (forall h, In h (made_dirs (output_dir a)) -> files w !! h = None) ->
  1 <= n_workers a -> 0 < n_tasks a ->
  (found = [] /\ - n_tasks a <= task a < n_tasks a) \/
  Z.of_nat (length found) <= task a < n_tasks a ->
  main f32 a tree w =
  (World (files w) (dirs w ∪ list_to_set (made_dirs (output_dir a)))
         (events w ++ [EvMakedirs (output_dir a)]), Ok tt).
Proof.
  intros found Hname Hfree Hw HT Hcase.
  assert (Hchunk : task_files found (n_tasks a) (task a) = Ok []).
  { destruct Hcase as [[Hnone Ht]|Ht].
    - destruct (task_files_valid found (n_tasks a) (task a) HT Ht)
        as [chunk Hchunk].
      rewrite Hchunk. f_equal. destruct chunk as [|f chunk]; [reflexivity|].
      pose proof (task_files_sublist _ _ _ _ Hchunk f ltac:(now left)) as Hf.
      rewrite Hnone in Hf. contradiction.
    - rewrite <- (Z2Nat.id (n_tasks a)), <- (Z2Nat.id (task a)) by lia.
      rewrite task_files_chunk by lia. f_equal.
      unfold chunk_size.
      rewrite Nat.div_small, Nat.mod_small by lia.
      destruct (Nat.ltb_spec (Z.to_nat (task a)) (length found)) as [H|_];
        [lia|reflexivity]. }
  rewrite main_steps. cbn zeta. fold found.
  rewrite (makedirs_ok _ _ Hname Hfree), Hchunk.
  unfold Pool. destruct (Z.ltb_spec (n_workers a) 1) as [H|_]; [lia|].
  reflexivity.
Qed.

(** An empty input directory, and a third task for two files. *)
Lemma main_nothing_to_do_witness :
  let w : world nat nat := World ∅ ∅ [] in
  let cl0 := CommandLine (Some "/data") (Some "/out") false None None None
                         None None in
  let cl1 := CommandLine (Some "/data") (Some "/out") false None None None
                         (Some 2) (Some 3) in
  main (fun v => v) (parse_args cl0) (Dir [] ["notes.txt"]) w =
    (World ∅ (∅ ∪ list_to_set ["/out"; "/"]) [EvMakedirs "/out"], Ok tt) /\
  main (fun v => v) (parse_args cl1) (Dir [] ["a.hdf5"; "b.hdf5"]) w =
    (World ∅ (∅ ∪ list_to_set ["/out"; "/"]) [EvMakedirs "/out"], Ok tt).
Proof.
  intros w cl0 cl1. split.
  - apply (main_nothing_to_do (fun v => v) (parse_args cl0)
             (Dir [] ["notes.txt"]) w);
      [discriminate|intros h _; apply lookup_empty|simpl; lia|simpl; lia|].
    left. split; [reflexivity|simpl; lia].
  - apply (main_nothing_to_do (fun v => v) (parse_args cl1)
             (Dir [] ["a.hdf5"; "b.hdf5"]) w);
      [discriminate|intros h _; apply lookup_empty|simpl; lia|simpl; lia|].
    right. simpl. lia.
Defined.

(** ** A whole run on one file *)

Lemma length_rstrip_sep (s : string) :
  (String.length (rstrip_sep s) <= String.length s)%nat.
Proof.
  induction s as [|c s IH]; [reflexivity|].
  cbn [rstrip_sep]. destruct (all_sep (String c s)); simpl; lia.
Qed.

Lemma length_strip_sep (s : string) :
  (String.length (strip_sep s) <= String.length s)%nat.
Proof.
  unfold strip_sep. destruct (all_sep s); [lia|apply length_rstrip_sep].
Qed.

Lemma length_head_of (p : string) :
  (String.length (head_of p) <= String.length p)%nat.
Proof.
  induction p as [|c p IH]; [reflexivity|].
  cbn [head_of]. destruct (has_sep p); [simpl; lia|].
  destruct (Ascii.eqb c "/"); simpl; lia.
Qed.

Lemma length_dirname (p : string) :
  (String.length (dirname p) <= String.length p)%nat.
Proof.
  unfold dirname. pose proof (length_strip_sep (head_of p)).
  pose proof (length_head_of p). lia.
Qed.

Lemma length_ancestors (fuel : nat) (d h : string) :
  In h (ancestors fuel d) -> (String.length h <= String.length d)%nat.
Proof.
  revert d. induction fuel as [|fuel IH]; intros d Hin; [contradiction|].
  cbn [ancestors] in Hin. cbv zeta in Hin.
  destruct (String.eqb (dirname d) d || String.eqb (dirname d) "");
    [contradiction|].
  pose proof (length_dirname d) as Hd.
  destruct Hin as [<-|Hin]; [exact Hd|].
  apply IH in Hin. lia.
Qed.

(** The directories made for [name] have paths no longer than [name]. *)
Lemma length_made_dirs (name h : string) :
  In h (made_dirs name) -> (String.length h <= String.length name)%nat.
Proof.
  unfold made_dirs. pose proof (length_strip_sep name) as Hs.
  intros [<-|Hin]; [exact Hs|].
  apply length_ancestors in Hin. lia.
Qed.

Lemma length_with_sep (a : string) :
  (String.length a <= String.length (with_sep a))%nat.
Proof.
  unfold with_sep. destruct (_ || _); [lia|].
  rewrite length_append. lia.
Qed.

(** One item goes to the pool as one chunk of one. *)
Lemma pool_map_single {A F : Type} (workers : nat)
  (func : string -> action A F unit) (f : string) (w : world A F) :
  (0 < workers)%nat -> pool_map workers func [f] w = func f w.
Proof.
  intros Hw. unfold pool_map, map_chunksize. cbn [length].
  rewrite Nat.div_small, Nat.mod_small by lia.
  cbn [Nat.eqb get_tasks firstn skipn run_chunks for_each].
  unfold and_then, ret.
  destruct (func f w) as [w1 [[]|e]]; reflexivity.
Qed.

(** X18.  A whole run on one file.  The task is handed exactly one file,
    a readable cubic volume of edge [E] in a source named [stem.hdf5];
    the sample size [s] is positive and there is at least one worker;
    the output path is not empty, no regular file is at it or above it,
    and no directory has the path of an output file.  Then the run makes
    the output directory, which need not be there before, reads the file,
    writes the [n^3] files [stem_000.tfrecord], ... in index order into
    that directory ([n = E // s]) and returns, with exit status 0; every
    one of these files is there afterwards. *)
Theorem main_one_file {A F : Type} (f32 : A -> F) (a : args) (tree : dir)
  (w : world A F) (E s : nat) (x : volume A) (y : list A) (f stem : string) :
  let out := output_dir a in
  let found := find_files (input_dir a) tree (max_files a) in
  task_files found (n_tasks a) (task a) = Ok [f] ->
  1 <= n_workers a ->
  sample_size a = Z.of_nat s -> (0 < s)%nat ->
  cubic E x -> files w !! f = Some (Hdf5 x y) ->
  basename f = stem +:+ ".hdf5" ->
  occurs ".hdf5" (stem +:+ ".hdf") = false ->
  out <> "" ->
  (forall h, In h (made_dirs out) -> files w !! h = None) ->
  let n := (E / s)%nat in
  let name idx := path_join out (stem +:+ "_" +:+ format_03i idx +:+ ".tfrecord") in
  (forall idx, (idx < n * n * n)%nat -> name idx ∉ dirs w) ->
  let run := main f32 a tree w in
  snd run = Ok tt /\
  exit_code (snd run) = 0 /\
  events (fst run) =
    events w ++ EvMakedirs out :: EvRead f
             :: map (fun idx => EvWrite (name idx)) (seq 0 (n * n * n)) /\
  dirs (fst run) = dirs w ∪ list_to_set (made_dirs out) /\
  (forall idx, (idx < n * n * n)%nat ->
     exists ex, files (fst run) !! name idx = Some (TFRecord ex)).
Proof.
  intros out found Htask Hw Hsize Hs Hx Hfile Hbase Hocc Hout Hfree n name
         Hnodir run.
  subst run. rewrite (main_made f32 a tree w Hout Hfree). cbv zeta.
  fold found. rewrite Htask. unfold Pool.
  destruct (Z.ltb_spec (n_workers a) 1) as [H|_]; [lia|].
  rewrite pool_map_single by lia. rewrite Hsize. fold out.
  set (w0 := World (files w) (dirs w ∪ list_to_set (made_dirs out))
                   (events w ++ [EvMakedirs out])).
  destruct (split_universe_cubic E s x Hx Hs)
    as (cubes & Hrun & Hlen & _ & _).
  fold n in Hlen.
  destruct (output_file_name_hdf5 out f stem Hbase Hocc) as [Hname _].
  fold name in Hname.
  set (W := writes_of f32 out f cubes y).
  assert (Hpaths : map fst W = map name (seq 0 (n * n * n))).
  { subst W. unfold writes_of. rewrite map_map. cbn [fst].
    rewrite <- Hlen. unfold enumerate.
    rewrite <- (map_fst_combine_seq cubes 0) at 2.
    rewrite map_map. apply map_ext. intros [idx cube]. apply Hname. }
  assert (Hstem : has_sep stem = false).
  { pose proof (has_sep_basename f) as H.
    rewrite Hbase, has_sep_append in H. now apply orb_false_iff in H. }
  assert (Hcan : forall idx, (idx < n * n * n)%nat ->
                   can_write
                     (World (files w0) (dirs w0) (events w0 ++ [EvRead f]))
                     (name idx) = true).
  { intros idx Hidx.
    assert (Hb : has_sep (stem +:+ "_" +:+ format_03i idx +:+ ".tfrecord")
                 = false)
      by (rewrite !has_sep_append, Hstem, has_sep_format_03i; reflexivity).
    assert (Hne : stem +:+ "_" +:+ format_03i idx +:+ ".tfrecord" <> "")
      by (destruct stem; discriminate).
    subst name. cbv beta. apply can_write_path_join; try assumption.
    - right. cbn [dirs w0]. apply elem_of_union_r, elem_of_list_to_set.
      apply list_elem_of_In. now left.
    - cbn [dirs w0]. intros Hin. apply elem_of_union in Hin.
      destruct Hin as [Hin|Hin]; [now apply (Hnodir idx Hidx)|].
      apply elem_of_list_to_set, list_elem_of_In, length_made_dirs in Hin.
      rewrite path_join_relative, length_append in Hin by exact Hb.
      pose proof (length_with_sep out).
      destruct (stem +:+ "_" +:+ format_03i idx +:+ ".tfrecord");
        [contradiction|]. simpl in Hin. lia. }
  assert (Hrun' : process_file f32 f out (Z.of_nat s) w0 =
                  (apply_writes W (World (files w0) (dirs w0)
                                         (events w0 ++ [EvRead f])), Ok tt)).
  { rewrite (process_file_reads f32 f out (Z.of_nat s) w0 x y Hfile), Hrun.
    apply run_writes_ok. apply List.Forall_forall. intros pe Hpe.
    assert (Hin : In (fst pe) (map fst W)) by now apply in_map.
    rewrite Hpaths in Hin. apply in_map_iff in Hin.
    destruct Hin as (idx & <- & Hidx). apply in_seq in Hidx.
    apply Hcan. lia. }
  rewrite Hrun'. cbn [fst snd].
  split; [reflexivity|]. split; [reflexivity|].
  split; [|split; [reflexivity|]].
  - unfold apply_writes. cbn [events w0]. rewrite <- !app_assoc. cbn [app].
    do 3 f_equal. rewrite <- (map_map fst EvWrite), Hpaths.
    now rewrite map_map.
  - intros idx Hidx. rewrite lookup_apply_writes.
    assert (Hin : In (EvWrite (name idx))
                     (map (fun pe => EvWrite (fst pe)) W)).
    { rewrite <- (map_map fst EvWrite), Hpaths, map_map.
      apply in_map_iff. exists idx. split; [reflexivity|].
      apply in_seq. lia. }
    apply last_write_written in Hin. destruct Hin as [ex ->]. eauto.
Qed.

(** A 2 x 2 x 2 volume cut with sample size 1 into [/scratch/out], which
    is not there before the run: eight files. *)
Lemma main_one_file_witness :
  let w := World {[ "/data/u.hdf5" := Hdf5 (coords 2) [(9, 9, 9)%nat] ]} ∅ [] in
  let tree := Dir [] ["u.hdf5"; "notes.txt"] in
  let a := Args "/data" "/scratch/out" false 1 None 1 0 1 in
  let run := main (fun v => v) a tree w in
  snd run = Ok tt /\
  events (fst run) =
    EvMakedirs "/scratch/out" :: EvRead "/data/u.hdf5"
      :: map (fun idx => EvWrite (path_join "/scratch/out"
                ("u" +:+ "_" +:+ format_03i idx +:+ ".tfrecord")))
             (seq 0 8) /\
  exists ex, files (fst run) !! "/scratch/out/u_007.tfrecord" = Some (TFRecord ex).
Proof.
  intros w tree a run.
  destruct (main_one_file (fun v => v) a tree w 2 1 (coords 2) [(9, 9, 9)%nat]
              "/data/u.hdf5" "u")
    as (Hok & _ & Hev & _ & Hfiles);
    [reflexivity|simpl; lia|reflexivity|lia|apply cubic_coords|reflexivity
    |reflexivity|reflexivity|discriminate| | |].
  - intros h [<-|[<-|[<-|[]]]]; reflexivity.
  - intros idx _. apply not_elem_of_empty.
  - split; [exact Hok|]. split; [exact Hev|].
    apply (Hfiles 7%nat). simpl. lia.
Defined.

(** ** More edge cases *)

Lemma endswith_path_join (a b suffix : string) :
  endswith b suffix = true -> endswith (path_join a b) suffix = true.
Proof.
  intros Hb. apply endswith_spec in Hb. destruct Hb as [stem ->].
  apply endswith_spec. unfold path_join.
  destruct (startswith (stem +:+ suffix) "/"); [now exists stem|].
  destruct (String.eqb a "" || endswith a "/").
  - exists (a +:+ stem). now rewrite append_assoc.
  - exists (a +:+ "/" +:+ stem). now rewrite !append_assoc.
Qed.

(** X15.  Every path [find_files] returns ends in [hdf5], with or
    without a cap, also a negative one. *)
Theorem find_files_paths_end_hdf5 (input_dir : string) (tree : dir)
  (max_files : option Z) (p : string) :
  In p (find_files input_dir tree max_files) -> endswith p "hdf5" = true.
Proof.
  intros Hin.
  assert (Hsorted : In p (sorted (discovered input_dir tree))).
  { unfold find_files in Hin. destruct max_files as [m|]; [|exact Hin].
    now apply In_slice in Hin. }
  apply (Permutation_in _ (Permutation_sym (sorted_Permutation _))) in Hsorted.
  apply in_discovered in Hsorted.
  destruct Hsorted as (subdir & dirnames & subfiles & f & _ & _ & Hend & ->).
  now apply endswith_path_join.
Qed.

Lemma find_files_paths_end_hdf5_witness :
  endswith "/d/run/a.hdf5" "hdf5" = true.
Proof.
  apply (find_files_paths_end_hdf5 "/d"
           (Dir [("run", Dir [] ["b.hdf5"; "a.hdf5"; "a.txt"])] ["c.hdf5"])
           (Some (-1)) "/d/run/a.hdf5").
  vm_compute. tauto.
Defined.

Lemma window3_whole {A : Type} (E : nat) (x : volume A) :
  cubic E x -> window3 x E 0 0 0 = x.
Proof.
  intros [Hlen Hall]. unfold window3. cbn [Nat.mul]. rewrite !skipn_O.
  rewrite <- Hlen at 1. rewrite firstn_all.
  rewrite <- (map_id x) at 2. apply map_ext_in. intros plane Hplane.
  rewrite List.Forall_forall in Hall.
  destruct (Hall plane Hplane) as [Hpl Hrows].
  rewrite skipn_O, <- Hpl at 1. rewrite firstn_all.
  rewrite <- (map_id plane) at 2. apply map_ext_in. intros row Hrow.
  rewrite List.Forall_forall in Hrows.
  rewrite skipn_O, <- (Hrows row Hrow) at 1. apply firstn_all.
Qed.

(** X16.  A sample size equal to the edge of a cubic volume yields one
    sub-cube, the volume itself. *)
Theorem split_universe_whole {A : Type} (E : nat) (x : volume A) :
  cubic E x -> (0 < E)%nat -> split_universe x (Z.of_nat E) = Ok [x].
Proof.
  intros Hx HE.
  rewrite (split_universe_windows E E x Hx HE).
  rewrite Nat.div_same by lia. cbn [seq flat_map app].
  now rewrite (window3_whole E x Hx).
Qed.

Lemma split_universe_whole_witness :
  split_universe (coords 3) 3 = Ok [coords 3].
Proof.
  apply (split_universe_whole 3 (coords 3) (cubic_coords 3)). lia.
Defined.
